(** * joystick_controller: the input-to-message streaming engine

    A shallow embedding of [src/components/Dashboard.tsx] (the streaming
    effect, the mapping operations and the configuration loaders),
    [src/hooks/useGamepad.ts] (the device snapshot) and
    [src/utils/configManager.ts] (the stored configuration record),
    followed by the properties of the engine.

    JavaScript numbers are IEEE 754 binary64 values; they are modelled by
    the Standard Library's [spec_float] at precision 53 and exponent bound
    1024, so every comparison and rounding below computes. *)

From Stdlib Require Import ZArith QArith Qabs Qpower Lia Bool Ascii String.
From Stdlib Require Import Floats.SpecFloat.
From stdpp Require Import base option list gmap strings.

(** ** JavaScript numbers *)

Module JS.

Local Open Scope Z_scope.

Definition number : Set := spec_float.

Definition prec : Z := 53.
Definition emax : Z := 1024.

(** The number denoted by an integer literal. *)
Definition of_Z (z : Z) : number := binary_normalize prec emax z 0 false.

(** The number denoted by the decimal literal [n / 10^k]: the binary64
    value nearest to it (both operands are exact for the literals used
    here, and the division rounds to nearest, ties to even). *)
Definition decimal (n : Z) (k : Z) : number :=
  SFdiv prec emax (of_Z n) (of_Z (10 ^ k)).

Definition zero : number := S754_zero false.
Definition one : number := of_Z 1.

(** [Math.abs]. *)
Definition abs (x : number) : number := SFabs x.

(** [x < y] on numbers: false as soon as one side is NaN. *)
Definition lt (x y : number) : bool := SFltb x y.

(** [x === y] on numbers: NaN differs from everything, [+0 === -0]. *)
Definition strict_eq (x y : number) : bool := SFeqb x y.

(** [x !== y]. *)
Definition strict_neq (x y : number) : bool := negb (strict_eq x y).

(** ToBoolean on a number: [0], [-0] and [NaN] are falsy. *)
Definition truthy (x : number) : bool :=
  match x with
  | S754_zero _ | S754_nan => false
  | _ => true
  end.

(** [v || 0] where [v] is a number or [undefined]. *)
Definition or_zero (v : option number) : number :=
  match v with
  | Some x => if truthy x then x else zero
  | None => zero
  end.

(** [Math.min(a, b)] and [Math.max(a, b)]: NaN if either argument is NaN,
    and [-0] is smaller than [+0]. *)
Definition is_neg_zero (x : number) : bool :=
  match x with S754_zero true => true | _ => false end.

Definition min (a b : number) : number :=
  match SFcompare a b with
  | None => S754_nan
  | Some Lt => a
  | Some Gt => b
  | Some Eq => if is_neg_zero a then a else b
  end.

Definition max (a b : number) : number :=
  match SFcompare a b with
  | None => S754_nan
  | Some Lt => b
  | Some Gt => a
  | Some Eq => if is_neg_zero a then b else a
  end.

(** [parseFloat(x.toFixed(2))].

    [toFixed(2)] prints NaN and the infinities by name and a magnitude of
    at least [1e21] in shortest round-trip notation, all of which
    [parseFloat] reads back unchanged.  Otherwise it takes the integer [n]
    nearest to [|x| * 100] (the larger one on a tie), and prints the sign
    of [x] followed by [n] with two decimals; [parseFloat] returns the
    binary64 value nearest to that decimal. *)
Definition hundredths (m : positive) (e : Z) : Z :=
  match e with
  | Zneg p => (200 * Zpos m + 2 ^ Zpos p) / 2 ^ (Zpos p + 1)
  | _ => 100 * Zpos m * 2 ^ e
  end.

Definition of_hundredths (s : bool) (n : Z) : number :=
  match n with
  | Zpos _ =>
      let '(q, e, l) := SFdiv_core_binary prec emax n 0 100 0 in
      binary_round_aux prec emax s q e l
  | _ => S754_zero s
  end.

Definition toFixed2_parseFloat (x : number) : number :=
  match x with
  | S754_finite s m e =>
      if lt (abs x) (of_Z (10 ^ 21)) then of_hundredths s (hundredths m e)
      else x
  | S754_zero _ => zero
  | _ => x
  end.

(** The rational a finite number denotes. *)
Definition to_Q (x : number) : option Q :=
  match x with
  | S754_zero _ => Some 0%Q
  | S754_finite s m e =>
      Some ((if s then -1 else 1) * inject_Z (Zpos m) * (2 ^ e))%Q
  | _ => None
  end.

(** A well-formed binary64 value: a finite one has its canonical mantissa
    and exponent. *)
Definition valid (x : number) : bool := valid_binary prec emax x.

End JS.

(** [Object.is] on numbers is equality of representations. *)
#[global] Instance number_eq_dec : EqDecision JS.number.
Proof. unfold JS.number. solve_decision. Defined.

(** ** JavaScript strings

    Field names are strings of 8-bit characters (U+0000 to U+00FF).
    [String.prototype.trim] removes the white space and line terminators of
    ECMAScript at both ends; in this range those are TAB, LF, VT, FF, CR,
    SPACE and NBSP. *)

Definition is_whitespace (c : ascii) : bool :=
  match Ascii.N_of_ascii c with
  | 9 | 10 | 11 | 12 | 13 | 32 | 160 => true
  | _ => false
  end%N.

Fixpoint trimStart (s : list ascii) : list ascii :=
  match s with
  | c :: s' => if is_whitespace c then trimStart s' else s
  | [] => []
  end.

Definition trimEnd (s : list ascii) : list ascii := rev (trimStart (rev s)).

Definition trim (s : string) : string :=
  string_of_list_ascii (trimEnd (trimStart (list_ascii_of_string s))).

(** ** Data model *)

(** [type: 'button' | 'axis'] of [FieldMapping]. *)
Inductive ChannelType : Set := button | axis.

#[global] Instance ChannelType_eq_dec : EqDecision ChannelType.
Proof. solve_decision. Defined.

(** [interface FieldMapping] (Dashboard.tsx). *)
Record FieldMapping : Set := mkFieldMapping {
  type : ChannelType;
  index : nat;
  fieldName : string
}.

#[global] Instance FieldMapping_eq_dec : EqDecision FieldMapping.
Proof. solve_decision. Defined.

(** [interface GamepadState] (useGamepad.ts). *)
Record GamepadState : Set := mkGamepadState {
  buttons : list bool;
  axes : list JS.number;
  timestamp : JS.number
}.

(** [interface GamepadConfig] (configManager.ts); the two optional fields
    are [None] when the property is [undefined]. *)
Record GamepadConfig : Set := mkGamepadConfig {
  cfg_name : string;
  cfg_natsUrl : string;
  cfg_subject : string;
  cfg_mappings : list FieldMapping;
  cfg_sendHz : option JS.number;
  cfg_sendByInterval : option bool;
  cfg_createdAt : JS.number
}.

(** The published record: field name to number. *)
Abbreviation Payload := (gmap string JS.number).

(** The two latch objects, [lastSentState.current] and
    [lastAxisValues.current].  A button latch holds what was read from
    [gamepadState.buttons], which is [undefined] past the end of the
    array; reading a key that was never written gives [undefined] too. *)
Abbreviation ButtonLatch := (gmap nat (option bool)).
Abbreviation AxisLatch := (gmap nat JS.number).

Definition readButtonLatch (o : ButtonLatch) (i : nat) : option bool :=
  o !! i ≫= id.

(** ** Deadzone filter *)

(** [const deadZone = 0.05]. *)
Definition deadZone : JS.number := JS.decimal 5 2.

(** [Math.abs(rawValue) < deadZone ? 0 : rawValue]. *)
Definition deadzone (rawValue : JS.number) : JS.number :=
  if JS.lt (JS.abs rawValue) deadZone then JS.zero else rawValue.

(** ** Payload builder *)

(** [isPressed ? 1 : 0] where [isPressed] may be [undefined]. *)
Definition pressedValue (isPressed : option bool) : JS.number :=
  match isPressed with
  | Some true => JS.one
  | _ => JS.zero
  end.

(** [payload[key] = value] on the plain object [payload], for a number
    [value].  Every key names an own property of the object but one:
    [__proto__] is an accessor inherited from [Object.prototype], the
    assignment goes to its setter, and the setter ignores a number.  No
    property is created and nothing is thrown. *)
Definition setField (key : string) (value : JS.number) (payload : Payload) : Payload :=
  if bool_decide (key = "__proto__") then payload
  else <[key := value]> payload.

(** One iteration of the [forEach] in [buildPayload]. *)
Definition buildField (gamepadState : GamepadState)
    (payload : Payload) (mapping : FieldMapping) : Payload :=
  match type mapping with
  | button =>
      let isPressed := buttons gamepadState !! index mapping in
      setField (fieldName mapping) (pressedValue isPressed) payload
  | axis =>
      let rawValue := JS.or_zero (axes gamepadState !! index mapping) in
      let currentValue := deadzone rawValue in
      setField (fieldName mapping) (JS.toFixed2_parseFloat currentValue) payload
  end.

Definition buildPayload (gamepadState : GamepadState)
    (mappings : list FieldMapping) : Payload :=
  foldl (buildField gamepadState) ∅ mappings.

(** ** Change detector *)

(** The variables the change-detection [forEach] updates. *)
Record Scan : Type := mkScan {
  hasChange : bool;
  payload : Payload;
  sentState : ButtonLatch;
  axisValues : AxisLatch
}.

(** One iteration of the [forEach] of the change-detection branch. *)
Definition scanField (gamepadState : GamepadState)
    (acc : Scan) (mapping : FieldMapping) : Scan :=
  match type mapping with
  | button =>
      let isPressed := buttons gamepadState !! index mapping in
      let wasPressed := readButtonLatch (sentState acc) (index mapping) in
      let changed := bool_decide (isPressed ≠ wasPressed) in
      {| hasChange := if changed then true else hasChange acc;
         payload := setField (fieldName mapping) (pressedValue isPressed) (payload acc);
         sentState :=
           if changed then <[index mapping := isPressed]> (sentState acc)
           else sentState acc;
         axisValues := axisValues acc |}
  | axis =>
      let rawValue := JS.or_zero (axes gamepadState !! index mapping) in
      let lastValue := axisValues acc !! index mapping in
      let currentValue := deadzone rawValue in
      let changed :=
        match lastValue with
        | None => true
        | Some last => JS.strict_neq currentValue last
        end in
      {| hasChange := if changed then true else hasChange acc;
         payload :=
           setField (fieldName mapping) (JS.toFixed2_parseFloat currentValue)
             (payload acc);
         sentState := sentState acc;
         axisValues :=
           if changed then <[index mapping := currentValue]> (axisValues acc)
           else axisValues acc |}
  end.

Definition scanMappings (gamepadState : GamepadState)
    (mappings : list FieldMapping) (b : ButtonLatch) (a : AxisLatch) : Scan :=
  foldl (scanField gamepadState)
    {| hasChange := false; payload := ∅; sentState := b; axisValues := a |}
    mappings.

(** ** The component

    The state of [Dashboard]: its [useState] cells, the two [useRef] latch
    objects, what [useGamepad] returns, the interval the streaming effect
    holds, and a log of the calls made to the transport.  Cells that only
    feed the rendering ([error], [currentValues], [isConfigDrawerOpen],
    [gamepads]) are left out. *)

(** A live [setInterval]: its period and next firing time in milliseconds,
    and the snapshot and table its callback closed over. *)
Record Timer : Type := mkTimer {
  period : Z;
  due : Z;
  closure_gamepadState : GamepadState;
  closure_mappings : list FieldMapping
}.

Record Dashboard : Type := mkDashboard {
  natsUrl : string;
  subject : string;
  natsConnection : bool;
  isConnected : bool;
  isStreaming : bool;
  mappings : list FieldMapping;
  lastMessage : option Payload;
  sendHz : JS.number;
  sendByInterval : bool;
  selectedGamepadIndex : option nat;
  gamepadState : option GamepadState;
  lastSentState : ButtonLatch;
  lastAxisValues : AxisLatch;
  intervalId : option Timer;
  wire : list Payload
}.

Definition set_natsUrl (v : string) (st : Dashboard) : Dashboard :=
  mkDashboard v (subject st) (natsConnection st) (isConnected st)
    (isStreaming st) (mappings st) (lastMessage st) (sendHz st)
    (sendByInterval st) (selectedGamepadIndex st) (gamepadState st)
    (lastSentState st) (lastAxisValues st) (intervalId st) (wire st).

Definition set_subject (v : string) (st : Dashboard) : Dashboard :=
  mkDashboard (natsUrl st) v (natsConnection st) (isConnected st)
    (isStreaming st) (mappings st) (lastMessage st) (sendHz st)
    (sendByInterval st) (selectedGamepadIndex st) (gamepadState st)
    (lastSentState st) (lastAxisValues st) (intervalId st) (wire st).

Definition set_natsConnection (v : bool) (st : Dashboard) : Dashboard :=
  mkDashboard (natsUrl st) (subject st) v (isConnected st) (isStreaming st)
    (mappings st) (lastMessage st) (sendHz st) (sendByInterval st)
    (selectedGamepadIndex st) (gamepadState st) (lastSentState st)
    (lastAxisValues st) (intervalId st) (wire st).

Definition set_isConnected (v : bool) (st : Dashboard) : Dashboard :=
  mkDashboard (natsUrl st) (subject st) (natsConnection st) v
    (isStreaming st) (mappings st) (lastMessage st) (sendHz st)
    (sendByInterval st) (selectedGamepadIndex st) (gamepadState st)
    (lastSentState st) (lastAxisValues st) (intervalId st) (wire st).

Definition set_isStreaming (v : bool) (st : Dashboard) : Dashboard :=
  mkDashboard (natsUrl st) (subject st) (natsConnection st) (isConnected st)
    v (mappings st) (lastMessage st) (sendHz st) (sendByInterval st)
    (selectedGamepadIndex st) (gamepadState st) (lastSentState st)
    (lastAxisValues st) (intervalId st) (wire st).

Definition set_mappings (v : list FieldMapping) (st : Dashboard) : Dashboard :=
  mkDashboard (natsUrl st) (subject st) (natsConnection st) (isConnected st)
    (isStreaming st) v (lastMessage st) (sendHz st) (sendByInterval st)
    (selectedGamepadIndex st) (gamepadState st) (lastSentState st)
    (lastAxisValues st) (intervalId st) (wire st).

Definition set_lastMessage (v : option Payload) (st : Dashboard) : Dashboard :=
  mkDashboard (natsUrl st) (subject st) (natsConnection st) (isConnected st)
    (isStreaming st) (mappings st) v (sendHz st) (sendByInterval st)
    (selectedGamepadIndex st) (gamepadState st) (lastSentState st)
    (lastAxisValues st) (intervalId st) (wire st).

Definition set_sendHz (v : JS.number) (st : Dashboard) : Dashboard :=
  mkDashboard (natsUrl st) (subject st) (natsConnection st) (isConnected st)
    (isStreaming st) (mappings st) (lastMessage st) v (sendByInterval st)
    (selectedGamepadIndex st) (gamepadState st) (lastSentState st)
    (lastAxisValues st) (intervalId st) (wire st).

Definition set_sendByInterval (v : bool) (st : Dashboard) : Dashboard :=
  mkDashboard (natsUrl st) (subject st) (natsConnection st) (isConnected st)
    (isStreaming st) (mappings st) (lastMessage st) (sendHz st) v
    (selectedGamepadIndex st) (gamepadState st) (lastSentState st)
    (lastAxisValues st) (intervalId st) (wire st).

Definition set_selectedGamepadIndex (v : option nat) (st : Dashboard) : Dashboard :=
  mkDashboard (natsUrl st) (subject st) (natsConnection st) (isConnected st)
    (isStreaming st) (mappings st) (lastMessage st) (sendHz st)
    (sendByInterval st) v (gamepadState st) (lastSentState st)
    (lastAxisValues st) (intervalId st) (wire st).

Definition set_gamepadState (v : option GamepadState) (st : Dashboard) : Dashboard :=
  mkDashboard (natsUrl st) (subject st) (natsConnection st) (isConnected st)
    (isStreaming st) (mappings st) (lastMessage st) (sendHz st)
    (sendByInterval st) (selectedGamepadIndex st) v (lastSentState st)
    (lastAxisValues st) (intervalId st) (wire st).

Definition set_lastSentState (v : ButtonLatch) (st : Dashboard) : Dashboard :=
  mkDashboard (natsUrl st) (subject st) (natsConnection st) (isConnected st)
    (isStreaming st) (mappings st) (lastMessage st) (sendHz st)
    (sendByInterval st) (selectedGamepadIndex st) (gamepadState st) v
    (lastAxisValues st) (intervalId st) (wire st).

Definition set_lastAxisValues (v : AxisLatch) (st : Dashboard) : Dashboard :=
  mkDashboard (natsUrl st) (subject st) (natsConnection st) (isConnected st)
    (isStreaming st) (mappings st) (lastMessage st) (sendHz st)
    (sendByInterval st) (selectedGamepadIndex st) (gamepadState st)
    (lastSentState st) v (intervalId st) (wire st).

Definition set_intervalId (v : option Timer) (st : Dashboard) : Dashboard :=
  mkDashboard (natsUrl st) (subject st) (natsConnection st) (isConnected st)
    (isStreaming st) (mappings st) (lastMessage st) (sendHz st)
    (sendByInterval st) (selectedGamepadIndex st) (gamepadState st)
    (lastSentState st) (lastAxisValues st) v (wire st).

Definition set_wire (v : list Payload) (st : Dashboard) : Dashboard :=
  mkDashboard (natsUrl st) (subject st) (natsConnection st) (isConnected st)
    (isStreaming st) (mappings st) (lastMessage st) (sendHz st)
    (sendByInterval st) (selectedGamepadIndex st) (gamepadState st)
    (lastSentState st) (lastAxisValues st) (intervalId st) v.


(** The state of a freshly mounted component. *)
Definition initial : Dashboard :=
  {| natsUrl := "ws://localhost:9222";
     subject := "joystick.data";
     natsConnection := false;
     isConnected := false;
     isStreaming := false;
     mappings := [];
     lastMessage := None;
     sendHz := JS.of_Z 2;
     sendByInterval := false;
     selectedGamepadIndex := None;
     gamepadState := None;
     lastSentState := ∅;
     lastAxisValues := ∅;
     intervalId := None;
     wire := [] |}.

(** ** Mapping table operations *)

Definition sameChannel (ty : ChannelType) (idx : nat) (m : FieldMapping) : Prop :=
  type m = ty ∧ index m = idx.

#[global] Instance sameChannel_dec ty idx m : Decision (sameChannel ty idx m).
Proof. unfold sameChannel. apply _. Defined.

(** [mappings.filter(m => !(m.type === type && m.index === index))]. *)
Definition withoutChannel (ty : ChannelType) (idx : nat)
    (l : list FieldMapping) : list FieldMapping :=
  filter (λ m, ¬ sameChannel ty idx m) l.

(** [addMapping]: nothing happens when the trimmed name is empty. *)
Definition addMapping (ty : ChannelType) (idx : nat) (name : string)
    (l : list FieldMapping) : list FieldMapping :=
  if bool_decide (trim name = "") then l
  else withoutChannel ty idx l ++ [mkFieldMapping ty idx (trim name)].

(** [removeMapping]. *)
Definition removeMapping (ty : ChannelType) (idx : nat)
    (l : list FieldMapping) : list FieldMapping :=
  withoutChannel ty idx l.

(** [getMapping]: [mappings.find(...)]. *)
Definition getMapping (ty : ChannelType) (idx : nat)
    (l : list FieldMapping) : option FieldMapping :=
  list_find (sameChannel ty idx) l ≫= λ r, Some r.2.

(** ** Configuration *)

(** The handler of the [sendHz] input:
    [setSendHz(Math.max(1, Math.min(100, Number(e.target.value))))]. *)
Definition clampSendHz (value : JS.number) : JS.number :=
  JS.max (JS.of_Z 1) (JS.min (JS.of_Z 100) value).

(** [handleLoadConfig]. *)
Definition handleLoadConfig (config : GamepadConfig) (st : Dashboard) : Dashboard :=
  let st := set_natsUrl (cfg_natsUrl config) st in
  let st := set_subject (cfg_subject config) st in
  let st := set_mappings (cfg_mappings config) st in
  let st :=
    match cfg_sendHz config with
    | Some hz => set_sendHz hz st
    | None => st
    end in
  match cfg_sendByInterval config with
  | Some b => set_sendByInterval b st
  | None => st
  end.

(** The mount effect: what [configManager.loadFromUrl()] returned, if
    anything, is copied into the state. *)
Definition loadUrlConfig (urlConfig : option GamepadConfig) (st : Dashboard) : Dashboard :=
  match urlConfig with
  | Some urlConfig =>
      let st := set_natsUrl (cfg_natsUrl urlConfig) st in
      let st := set_subject (cfg_subject urlConfig) st in
      let st := set_mappings (cfg_mappings urlConfig) st in
      let st :=
        match cfg_sendHz urlConfig with
        | Some hz => set_sendHz hz st
        | None => st
        end in
      match cfg_sendByInterval urlConfig with
      | Some b => set_sendByInterval b st
      | None => st
      end
  | None => st
  end.

(** ** Transport and the streaming effect *)

(** What a call of [natsConnection.publish] does: it returns, or it throws
    synchronously. *)
Inductive PublishOutcome : Set := Returned | Threw.

(** The delay [setInterval] is given is a number; the host turns it into a
    32-bit integer count of milliseconds, and a repeating timer never runs
    faster than once per millisecond. *)
Definition truncate (x : JS.number) : Z :=
  match x with
  | S754_finite s m e =>
      let a := match e with
               | Zneg p => Zpos m / 2 ^ Zpos p
               | _ => Zpos m * 2 ^ e
               end%Z in
      if s then (- a)%Z else a
  | _ => 0%Z
  end.

Definition toInt32 (x : JS.number) : Z :=
  ((truncate x + 2 ^ 31) mod 2 ^ 32 - 2 ^ 31)%Z.

Definition timerDelay (ms : JS.number) : Z := Z.max 1 (toInt32 ms).

Section Streaming.

(** The transport: whether its [n]-th [publish] call (counting from 0)
    returns or throws. *)
Variable transport : nat → PublishOutcome.

(** [sendPayload]: the call is made; [setLastMessage] is reached only
    when it returned. *)
Definition sendPayload (payload : Payload) (st : Dashboard) : Dashboard :=
  match transport (length (wire st)) with
  | Returned => set_lastMessage (Some payload) (set_wire (wire st ++ [payload]) st)
  | Threw => set_wire (wire st ++ [payload]) st
  end.

(** The early return of the streaming effect. *)
Definition effectGuard (st : Dashboard) : bool :=
  isStreaming st && natsConnection st &&
  bool_decide (is_Some (gamepadState st)) &&
  bool_decide (mappings st ≠ []).

(** The body of the streaming effect, run at time [now]. *)
Definition streamingEffect (now : Z) (st : Dashboard) : Dashboard :=
  match gamepadState st with
  | Some gs =>
      if effectGuard st then
        if sendByInterval st then
          let intervalMs := SFdiv JS.prec JS.emax (JS.of_Z 1000) (sendHz st) in
          let p := timerDelay intervalMs in
          set_intervalId (Some (mkTimer p (now + p) gs (mappings st))) st
        else
          let sc := scanMappings gs (mappings st)
                      (lastSentState st) (lastAxisValues st) in
          let st := set_lastSentState (sentState sc) st in
          let st := set_lastAxisValues (axisValues sc) st in
          if hasChange sc then sendPayload (payload sc) st else st
      else st
  | None => st
  end.

(** The cleanup the interval branch returns: [clearInterval(intervalId)]. *)
Definition effectCleanup (st : Dashboard) : Dashboard := set_intervalId None st.

(** The interval callback: [sendPayload(buildPayload())]. *)
Definition intervalFire (st : Dashboard) : Dashboard :=
  match intervalId st with
  | Some t =>
      let st := set_intervalId
                  (Some (mkTimer (period t) (due t + period t)
                           (closure_gamepadState t) (closure_mappings t))) st in
      sendPayload (buildPayload (closure_gamepadState t) (closure_mappings t)) st
  | None => st
  end.

End Streaming.

(** ** Events

    What can happen to the component: the handlers the rendered controls
    call, the animation-frame poll of [useGamepad], and the outcome of
    [handleConnect].  An event is available when its control is rendered
    and not disabled. *)

Inductive Event : Type :=
  | SetNatsUrl (value : string)
  | SetSubject (value : string)
  | SetSendByInterval (checked : bool)
  | InputSendHz (value : JS.number)
  | ConnectSucceeded
  | ConnectFailed
  | Disconnect
  | SelectGamepad (i : nat)
  | GamepadDisconnected
  | AnimationFrame (gs : GamepadState)
  | ToggleStreaming
  | MappingInputBlur (ty : ChannelType) (idx : nat) (value : string)
  | RemoveClick (ty : ChannelType) (idx : nat)
  | LoadConfig (config : GamepadConfig).

(** The number of rows the mapping panel shows for a channel type. *)
Definition channelCount (ty : ChannelType) (gs : GamepadState) : nat :=
  match ty with
  | button => length (buttons gs)
  | axis => length (axes gs)
  end.

Definition mappingRowShown (ty : ChannelType) (idx : nat) (st : Dashboard) : bool :=
  match selectedGamepadIndex st, gamepadState st with
  | Some _, Some gs => bool_decide (idx < channelCount ty gs)
  | _, _ => false
  end.

Definition available (st : Dashboard) (ev : Event) : bool :=
  match ev with
  | SetNatsUrl _ => negb (isConnected st)
  | SetSubject _ => negb (isStreaming st)
  | SetSendByInterval _ => negb (isStreaming st)
  | InputSendHz _ => sendByInterval st && negb (isStreaming st)
  | ConnectSucceeded | ConnectFailed => negb (isConnected st)
  | Disconnect => isConnected st
  | SelectGamepad _ => true
  | GamepadDisconnected => bool_decide (is_Some (selectedGamepadIndex st))
  | AnimationFrame _ => bool_decide (is_Some (selectedGamepadIndex st))
  | ToggleStreaming =>
      bool_decide (is_Some (selectedGamepadIndex st)) &&
      negb (negb (isConnected st) || bool_decide (mappings st = []))
  | MappingInputBlur ty idx _ => mappingRowShown ty idx st
  | RemoveClick ty idx =>
      mappingRowShown ty idx st &&
      bool_decide (is_Some (getMapping ty idx (mappings st)))
  | LoadConfig _ => true
  end.

(** The state updates of a handler, and whether they change one of the
    dependencies of the streaming effect ([gamepadState], [natsConnection],
    [mappings], [subject], [isStreaming], [sendHz], [sendByInterval]).  A
    new object or array always does; a string, boolean or number does when
    its value differs.  A loaded configuration comes from the panel's list,
    which is parsed from storage, so its [mappings] array is a new one when
    an entry is loaded; loading the same entry of an unrefreshed list a
    second time would hand over the identical array, a case the event
    does not tell apart and the model counts as a change as well. *)
Definition handle (ev : Event) (st : Dashboard) : Dashboard * bool :=
  match ev with
  | SetNatsUrl value => (set_natsUrl value st, false)
  | SetSubject value =>
      (set_subject value st, bool_decide (value ≠ subject st))
  | SetSendByInterval checked =>
      (set_sendByInterval checked st, bool_decide (checked ≠ sendByInterval st))
  | InputSendHz value =>
      let hz := clampSendHz value in
      (set_sendHz hz st, bool_decide (hz ≠ sendHz st))
  | ConnectSucceeded =>
      (set_isConnected true (set_natsConnection true st), true)
  | ConnectFailed => (st, false)
  | Disconnect =>
      if natsConnection st then
        (set_isStreaming false
           (set_isConnected false (set_natsConnection false st)), true)
      else (st, false)
  | SelectGamepad i => (set_selectedGamepadIndex (Some i) st, false)
  | GamepadDisconnected =>
      (set_gamepadState None (set_selectedGamepadIndex None st),
       bool_decide (is_Some (gamepadState st)))
  | AnimationFrame gs => (set_gamepadState (Some gs) st, true)
  | ToggleStreaming => (set_isStreaming (negb (isStreaming st)) st, true)
  | MappingInputBlur ty idx value =>
      if bool_decide (trim value ≠ "") then
        (set_mappings (addMapping ty idx value (mappings st)) st, true)
      else if bool_decide (is_Some (getMapping ty idx (mappings st))) then
        (set_mappings (removeMapping ty idx (mappings st)) st, true)
      else (st, false)
  | RemoveClick ty idx =>
      (set_mappings (removeMapping ty idx (mappings st)) st, true)
  | LoadConfig config => (handleLoadConfig config st, true)
  end.

Section Run.

Variable transport : nat → PublishOutcome.

(** One event at time [now]: the handler runs, and when a dependency
    changed the previous effect is cleaned up and the effect runs again.
    An event that is not available does nothing. *)
Definition step (now : Z) (ev : Event) (st : Dashboard) : Dashboard :=
  if available st ev then
    let '(st', changed) := handle ev st in
    if changed then streamingEffect transport now (effectCleanup st')
    else st'
  else st.

(** The interval fires whenever it is due, up to time [t]. *)
Fixpoint fireDue (fuel : nat) (t : Z) (st : Dashboard) : Dashboard :=
  match fuel with
  | O => st
  | S fuel =>
      match intervalId st with
      | Some tm =>
          if (due tm <=? t)%Z then fireDue fuel t (intervalFire transport st)
          else st
      | None => st
      end
  end.

Definition advance (t : Z) (st : Dashboard) : Dashboard :=
  match intervalId st with
  | Some tm => fireDue (Z.to_nat ((t - due tm) / period tm + 1)) t st
  | None => st
  end.

(** A timed run: before each event the interval catches up with the
    event's time. *)
Fixpoint run (evs : list (Z * Event)) (st : Dashboard) : Dashboard :=
  match evs with
  | [] => st
  | (t, ev) :: evs => run evs (step t ev (advance t st))
  end.

End Run.

(** The states the component can be in: after mounting, with or without a
    configuration in the URL, and after any timed run. *)
Definition mount (urlConfig : option GamepadConfig) : Dashboard :=
  loadUrlConfig urlConfig initial.

Definition reachable (transport : nat → PublishOutcome) (st : Dashboard) : Prop :=
  ∃ urlConfig evs, st = run transport evs (mount urlConfig).

(** ** Vocabulary of the properties *)

(** The magnitude of the finite number with mantissa [m] and exponent [e]. *)
Definition magnitude (m : positive) (e : Z) : Q :=
  (inject_Z (Zpos m) * 2 ^ e)%Q.

(** [|x| < q] and [|x| >= q] for a number read as an extended real; NaN
    satisfies neither. *)
Definition magnitudeBelow (x : JS.number) (q : Q) : Prop :=
  match JS.to_Q x with
  | Some v => (Qabs v < q)%Q
  | None => False
  end.

Definition magnitudeAtLeast (x : JS.number) (q : Q) : Prop :=
  match x with
  | S754_infinity _ => True
  | _ => match JS.to_Q x with
         | Some v => (q <= Qabs v)%Q
         | None => False
         end
  end.


(** The value one mapping contributes to the payload. *)
Definition fieldValue (gs : GamepadState) (m : FieldMapping) : JS.number :=
  match type m with
  | button => pressedValue (buttons gs !! index m)
  | axis => JS.toFixed2_parseFloat (deadzone (JS.or_zero (axes gs !! index m)))
  end.

(** The deadzone-filtered, not yet rounded value of an axis. *)
Definition axisReading (gs : GamepadState) (idx : nat) : JS.number :=
  deadzone (JS.or_zero (axes gs !! idx)).

(** A mapped channel counts as changed against the latches [b] and [a]: a
    button when what is read from the snapshot differs from what its latch
    holds; an axis when it has no latch or its reading differs from it. *)
Definition channelChanged (gs : GamepadState) (b : ButtonLatch) (a : AxisLatch)
    (m : FieldMapping) : Prop :=
  match type m with
  | button => buttons gs !! index m ≠ readButtonLatch b (index m)
  | axis =>
      match a !! index m with
      | None => True
      | Some last => JS.strict_neq (axisReading gs (index m)) last = true
      end
  end.

#[global] Instance channelChanged_dec gs b a m : Decision (channelChanged gs b a m).
Proof. unfold channelChanged. destruct (type m); [apply _|]. destruct (a !! index m); apply _. Defined.

(** No latch has been stored for the channel of a mapping. *)
Definition latchMissing (b : ButtonLatch) (a : AxisLatch) (m : FieldMapping) : Prop :=
  match type m with
  | button => b !! index m = None
  | axis => a !! index m = None
  end.

(** At most one mapping per (type, index) pair. *)
Definition channelOf (m : FieldMapping) : ChannelType * nat := (type m, index m).

Definition uniqueChannels (l : list FieldMapping) : Prop := NoDup (channelOf <$> l).

(** [sendHz] lies in the interval from 1 to 100. *)
Definition sendHzInRange (hz : JS.number) : bool :=
  SFleb (JS.of_Z 1) hz && SFleb hz (JS.of_Z 100).

(** What holds of the variables of the change-detection loop once it has
    visited the mappings [l], having started from the latches [b] and [a]:
    the flag records whether a visited channel changed against [b] and [a],
    and a latch either still reads what it read at the start or reads the
    current snapshot, the flag being set in that case. *)
Definition scanInvariant (gs : GamepadState) (b : ButtonLatch) (a : AxisLatch)
    (l : list FieldMapping) (acc : Scan) : Prop :=
  (hasChange acc = true ↔ Exists (channelChanged gs b a) l) ∧
  (∀ i, readButtonLatch (sentState acc) i = readButtonLatch b i ∨
        (readButtonLatch (sentState acc) i = buttons gs !! i ∧
         hasChange acc = true)) ∧
  (∀ i, axisValues acc !! i = a !! i ∨
        (axisValues acc !! i = Some (axisReading gs i) ∧
         hasChange acc = true)).

(** The latch of a mapping's channel agrees with the current snapshot: a
    button latch reads what the snapshot reads, an axis latch holds a value
    strictly equal to the reading. *)
Definition latched (gs : GamepadState) (b : ButtonLatch) (a : AxisLatch)
    (m : FieldMapping) : Prop :=
  match type m with
  | button => readButtonLatch b (index m) = buttons gs !! index m
  | axis =>
      ∃ last, a !! index m = Some last ∧
              JS.strict_neq (axisReading gs (index m)) last = false
  end.

(** ** Scenarios

    Concrete devices, tables and event sequences the properties are
    evaluated on. *)

(** A transport whose every call returns, and one whose every call throws. *)
Definition alwaysReturns : nat → PublishOutcome := λ _, Returned.
Definition alwaysThrows : nat → PublishOutcome := λ _, Threw.

(** A pad with two buttons, both released, and four axes, the first pushed
    half way. *)
Definition padAtRest : GamepadState :=
  mkGamepadState [false; false]
    [JS.decimal 5 1; JS.zero; JS.zero; JS.zero] JS.zero.

(** A stored configuration that maps button 5, which [padAtRest] lacks. *)
Definition configButton5 : GamepadConfig :=
  {| cfg_name := "wide pad";
     cfg_natsUrl := "ws://localhost:9222";
     cfg_subject := "joystick.data";
     cfg_mappings := [mkFieldMapping button 5 "fire"];
     cfg_sendHz := None;
     cfg_sendByInterval := None;
     cfg_createdAt := JS.zero |}.

(** A stored configuration asking for 1000 messages per second. *)
Definition configFast : GamepadConfig :=
  {| cfg_name := "fast";
     cfg_natsUrl := "ws://localhost:9222";
     cfg_subject := "joystick.data";
     cfg_mappings := [mkFieldMapping axis 0 "turn"];
     cfg_sendHz := Some (JS.of_Z 1000);
     cfg_sendByInterval := Some true;
     cfg_createdAt := JS.zero |}.

(** Connect, select the pad, receive a first snapshot and map axis 0. *)
Definition setUp : list (Z * Event) :=
  [(0, ConnectSucceeded); (0, SelectGamepad 0);
   (0, AnimationFrame padAtRest);
   (0, MappingInputBlur axis 0 "turn")]%Z.

(** [n] animation frames of [gs], 16 ms apart, the first at [t0 + 16]. *)
Definition frames (gs : GamepadState) (t0 : Z) (n : nat) : list (Z * Event) :=
  (λ k : nat, (t0 + 16 * Z.of_nat (S k), AnimationFrame gs)%Z) <$> seq 0 n.

(** A ChangeDetect session that has published the pad's state. *)
Definition streamingOnChange : Dashboard :=
  run alwaysReturns (setUp ++ [(0, ToggleStreaming)]%Z ++ frames padAtRest 0 3) initial.

(** An IntervalDriven session at 10 Hz, just started. *)
Definition streamingAt10Hz : Dashboard :=
  run alwaysReturns
    (setUp ++ [(0, SetSendByInterval true); (0, InputSendHz (JS.of_Z 10));
               (0, ToggleStreaming)]%Z) initial.

(** A ChangeDetect session with button 0 and axis 0 mapped. *)
Definition streamingTwoChannels : Dashboard :=
  run alwaysReturns
    (setUp ++ [(0, MappingInputBlur button 0 "fire"); (0, ToggleStreaming)]%Z ++
     frames padAtRest 0 3) initial.

(** A ChangeDetect session started on a table that maps only button 5. *)
Definition streamingButton5 : Dashboard :=
  run alwaysReturns
    ([(0, LoadConfig configButton5); (0, ConnectSucceeded);
      (0, SelectGamepad 0); (0, AnimationFrame padAtRest);
      (0, ToggleStreaming)]%Z ++ frames padAtRest 0 3) initial.

(** ** Configuration store

    [configManager] of [src/utils/configManager.ts] keeps the saved
    configurations in [localStorage] under one key, as JSON text.  The
    stored text is represented by the list it parses to; [None] stands for
    an absent key or a text that does not parse, which [getAllConfigs]
    answers with the empty list.  Writing a list as JSON and reading it
    back gives the same list when its numbers survive JSON ([jsonExact]
    below); the properties that depend on the stored numbers assume it. *)

(** [JSON.parse(JSON.stringify(x))] for a number: NaN and the infinities
    are written as [null], here [None]; both zeros are written as [0]; a
    finite number is written in shortest round-trip notation and read back
    unchanged. *)
Definition jsonNumber (x : JS.number) : option JS.number :=
  match x with
  | S754_finite _ _ _ => Some x
  | S754_zero _ => Some JS.zero
  | _ => None
  end.

(** A configuration that is read back from its JSON text unchanged: its
    numbers are. *)
Definition jsonExact (c : GamepadConfig) : Prop :=
  jsonNumber (cfg_createdAt c) = Some (cfg_createdAt c) ∧
  match cfg_sendHz c with
  | Some hz => jsonNumber hz = Some hz
  | None => True
  end.

Abbreviation Storage := (option (list GamepadConfig)).

(** [getAllConfigs]. *)
Definition getAllConfigs (stored : Storage) : list GamepadConfig := default [] stored.

(** [c.name === name]. *)
Definition hasName (name : string) (c : GamepadConfig) : Prop := cfg_name c = name.

#[global] Instance hasName_dec name c : Decision (hasName name c).
Proof. unfold hasName. apply _. Defined.

(** [{ ...config, createdAt: Date.now() }]. *)
Definition stamped (config : GamepadConfig) (now : JS.number) : GamepadConfig :=
  {| cfg_name := cfg_name config;
     cfg_natsUrl := cfg_natsUrl config;
     cfg_subject := cfg_subject config;
     cfg_mappings := cfg_mappings config;
     cfg_sendHz := cfg_sendHz config;
     cfg_sendByInterval := cfg_sendByInterval config;
     cfg_createdAt := now |}.

(** [saveConfig], called when [Date.now()] is [now]: the first stored
    configuration of the same name is replaced, otherwise the new one is
    pushed. *)
Definition saveConfig (config : GamepadConfig) (now : JS.number)
    (stored : Storage) : Storage :=
  let configs := getAllConfigs stored in
  let newConfig := stamped config now in
  match list_find (hasName (cfg_name config)) configs with
  | Some (existingIndex, _) => Some (<[existingIndex := newConfig]> configs)
  | None => Some (configs ++ [newConfig])
  end.

(** [deleteConfig]. *)
Definition deleteConfig (name : string) (stored : Storage) : Storage :=
  Some (filter (λ c, ¬ hasName name c) (getAllConfigs stored)).

(** [getConfig]: [find(...) || null]. *)
Definition getConfig (name : string) (stored : Storage) : option GamepadConfig :=
  snd <$> list_find (hasName name) (getAllConfigs stored).

(** [handleSaveConfig] of [ConfigPanel], with [configName] the content of
    the name input and the component's current settings as props: a blank
    name saves nothing. *)
Definition handleSaveConfig (configName : string) (now : JS.number)
    (st : Dashboard) (stored : Storage) : Storage :=
  if bool_decide (trim configName = "") then stored
  else
    saveConfig
      {| cfg_name := trim configName;
         cfg_natsUrl := natsUrl st;
         cfg_subject := subject st;
         cfg_mappings := mappings st;
         cfg_sendHz := Some (sendHz st);
         cfg_sendByInterval := Some (sendByInterval st);
         cfg_createdAt := now |}
      now stored.

(** ** Further vocabulary *)

(** The payload of the latest transport call that returned, among the
    calls [w] numbered from [n]; [acc] when there is none. *)
Fixpoint lastReturnedFrom (transport : nat → PublishOutcome) (n : nat)
    (w : list Payload) (acc : option Payload) : option Payload :=
  match w with
  | [] => acc
  | p :: w =>
      lastReturnedFrom transport (S n) w
        (match transport n with Returned => Some p | Threw => acc end)
  end.

(** The period of the interval for a given [sendHz]. *)
Definition intervalPeriod (hz : JS.number) : Z :=
  timerDelay (SFdiv JS.prec JS.emax (JS.of_Z 1000) hz).

(** A live interval belongs to a session that streams in interval mode,
    and its callback closed over the current snapshot and table. *)
Definition timerConsistent (st : Dashboard) : Prop :=
  match intervalId st with
  | Some tm =>
      isStreaming st = true ∧ sendByInterval st = true ∧
      natsConnection st = true ∧
      gamepadState st = Some (closure_gamepadState tm) ∧
      mappings st = closure_mappings tm ∧ mappings st ≠ [] ∧
      period tm = intervalPeriod (sendHz st)
  | None => True
  end.

(** Animation frames only, each one arriving before the interval armed by
    the previous one (of period [p], first due at [d]) comes due. *)
Fixpoint framesBeforeDue (p d : Z) (evs : list (Z * Event)) : Prop :=
  match evs with
  | [] => True
  | (t, AnimationFrame _) :: evs => (t < d)%Z ∧ framesBeforeDue p (t + p) evs
  | _ => False
  end.

(** A session that streams: the guard of the effect passes whatever
    snapshot arrives. *)
Definition sessionOpen (st : Dashboard) : Prop :=
  isStreaming st = true ∧ natsConnection st = true ∧
  is_Some (selectedGamepadIndex st) ∧ mappings st ≠ [].

(** The two facts carried along a run from the state [st0]: the wire has
    only grown, and the last-message cell holds the payload of the latest
    call that returned. *)
Definition carried (transport : nat → PublishOutcome) (st0 st : Dashboard) : Prop :=
  wire st0 `prefix_of` wire st ∧
  lastMessage st = lastReturnedFrom transport 0 (wire st) None.

(** No event of the run loads a configuration. *)
Definition isLoadConfig (ev : Event) : Prop :=
  match ev with LoadConfig _ => True | _ => False end.

(** The two values a button field can carry. *)
Definition buttonValues : list JS.number := [JS.zero; JS.one].

(** The latch entry of a channel. *)
Definition latchEntry (ty : ChannelType) (idx : nat) (st : Dashboard) : option (option bool) + option JS.number :=
  match ty with
  | button => inl (lastSentState st !! idx)
  | axis => inr (lastAxisValues st !! idx)
  end.

(** The event is an animation frame. *)
Definition isAnimationFrame (ev : Event) : Prop :=
  match ev with AnimationFrame _ => True | _ => False end.

(** * Properties *)

(** ** Numbers: canonical mantissas and magnitudes *)

Section Magnitude.

Local Open Scope Z_scope.

Lemma digits2_pos_bounds (m : positive) :
  2 ^ (Zpos (digits2_pos m) - 1) ≤ Zpos m < 2 ^ Zpos (digits2_pos m).
Proof.
  induction m as [m IH | m IH |]; cbn [digits2_pos].
  - rewrite Pos2Z.inj_succ, Z.pow_succ_r by lia.
    replace (Z.succ (Zpos (digits2_pos m)) - 1) with (Z.succ (Zpos (digits2_pos m) - 1)) by lia.
    rewrite Z.pow_succ_r by lia. lia.
  - rewrite Pos2Z.inj_succ, Z.pow_succ_r by lia.
    replace (Z.succ (Zpos (digits2_pos m)) - 1) with (Z.succ (Zpos (digits2_pos m) - 1)) by lia.
    rewrite Z.pow_succ_r by lia. lia.
  - cbn. lia.
Qed.

(** A canonical binary64 mantissa has at most 53 bits, and exactly 53
    above the smallest exponent. *)
Lemma bounded_mantissa (m : positive) (e : Z) :
  bounded JS.prec JS.emax m e = true →
  -1074 ≤ e ∧ Zpos m < 2 ^ 53 ∧ (-1074 < e → 2 ^ 52 ≤ Zpos m).
Proof.
  unfold bounded, canonical_mantissa, fexp, emin, JS.prec, JS.emax.
  intros H. apply andb_prop in H as [H _]. apply Z.eqb_eq in H.
  pose proof (digits2_pos_bounds m) as [Hlo Hhi].
  set (d := Zpos (digits2_pos m)) in *.
  assert (Hd : 0 < d) by (unfold d; lia).
  split; [lia|]. split.
  - apply Z.lt_le_trans with (2 ^ d); [exact Hhi|].
    apply Z.pow_le_mono_r; lia.
  - intros He. assert (d = 53) as Hd53 by lia.
    rewrite Hd53 in Hlo. exact Hlo.
Qed.

End Magnitude.

Section MagnitudeQ.

Local Open Scope Q_scope.

Lemma pow2_le (a b : Z) : (a ≤ b)%Z → 2 ^ a <= 2 ^ b.
Proof. intros H. apply Qpower_le_compat_l; [exact H | discriminate]. Qed.

Lemma pow2_pos (a : Z) : 0 < 2 ^ a.
Proof. apply Qpower_0_lt. reflexivity. Qed.

Lemma inject_Z_pos (m : positive) : 0 < inject_Z (Zpos m).
Proof. reflexivity. Qed.


Lemma magnitude_pos m e : 0 < magnitude m e.
Proof. apply Qmult_lt_0_compat; [apply inject_Z_pos | apply pow2_pos]. Qed.

Lemma magnitude_upper (m : positive) (e k b : Z) :
  (Zpos m < k)%Z → (e ≤ b)%Z → magnitude m e < inject_Z k * 2 ^ b.
Proof.
  intros Hm He. unfold magnitude.
  apply Qlt_le_trans with (inject_Z k * 2 ^ e).
  - apply Qmult_lt_compat_r; [apply pow2_pos|].
    rewrite <- Zlt_Qlt. exact Hm.
  - rewrite !(Qmult_comm (inject_Z k)).
    apply Qmult_le_compat_r; [now apply pow2_le|].
    rewrite <- (Zle_Qle 0). lia.
Qed.

Lemma magnitude_lower (m : positive) (e k b : Z) :
  (0 ≤ k ≤ Zpos m)%Z → (b ≤ e)%Z → inject_Z k * 2 ^ b <= magnitude m e.
Proof.
  intros Hm He. unfold magnitude.
  apply Qle_trans with (inject_Z k * 2 ^ e).
  - rewrite !(Qmult_comm (inject_Z k)).
    apply Qmult_le_compat_r; [now apply pow2_le|].
    rewrite <- (Zle_Qle 0). lia.
  - apply Qmult_le_compat_r; [|apply Qlt_le_weak, pow2_pos].
    rewrite <- Zle_Qle. lia.
Qed.

Lemma deadZone_eq : deadZone = S754_finite false 7205759403792794 (-57).
Proof. vm_compute. reflexivity. Qed.


Lemma lt_deadZone_magnitude (m : positive) (e : Z) :
  bounded JS.prec JS.emax m e = true →
  if JS.lt (S754_finite false m e) deadZone
  then magnitude m e < 5 # 100
  else 5 # 100 <= magnitude m e.
Proof.
  intros Hb. apply bounded_mantissa in Hb as (Hmin & Hhi & Hlo).
  rewrite deadZone_eq.
  unfold JS.lt, SFltb, SFcompare.
  destruct (e ?= -57)%Z eqn:He.
  - apply Z.compare_eq in He. subst e.
    rewrite Pos.compare_cont_spec. cbn [Pos.switch_Eq].
    destruct (m ?= 7205759403792794)%positive eqn:Hm.
    + apply Pos.compare_eq in Hm. subst m. vm_compute. discriminate.
    + apply Qle_lt_trans with (inject_Z 7205759403792793 * 2 ^ (-57)).
      * apply Qmult_le_compat_r; [|apply Qlt_le_weak, pow2_pos].
        rewrite <- Zle_Qle.
        apply (Z.lt_succ_r (Zpos m) 7205759403792793). exact Hm.
      * vm_compute. reflexivity.
    + apply Qle_trans with (inject_Z 7205759403792794 * 2 ^ (-57)).
      * vm_compute. discriminate.
      * apply magnitude_lower; [|apply Z.le_refl].
        split; [done|].
        apply Z.lt_le_incl, Z.gt_lt. exact Hm.
  - apply Qlt_le_trans with (inject_Z (2 ^ 53) * 2 ^ (-58)).
    + apply magnitude_upper; [exact Hhi|].
      change (e < -57)%Z in He. apply Z.lt_le_pred in He. exact He.
    + vm_compute. discriminate.
  - apply Qle_trans with (inject_Z (2 ^ 52) * 2 ^ (-56)).
    + vm_compute. discriminate.
    + apply (proj1 (Z.compare_gt_iff _ _)) in He.
      apply magnitude_lower.
      * split; [done|]. apply Hlo.
        apply Z.le_lt_trans with (-57)%Z; [done | exact He].
      * apply Z.le_succ_l in He. exact He.
Qed.

End MagnitudeQ.

(** ** Deadzone filter *)

Lemma Qabs_signed_magnitude (s : bool) (m : positive) (e : Z) :
  (Qabs ((if s then -1 else 1) * inject_Z (Zpos m) * 2 ^ e) == magnitude m e)%Q.
Proof.
  unfold magnitude. rewrite !Qabs_Qmult.
  rewrite (Qabs_pos (2 ^ e)) by apply Qlt_le_weak, pow2_pos.
  rewrite (Qabs_pos (inject_Z (Zpos m))) by apply Qlt_le_weak, inject_Z_pos.
  destruct s.
  - change (Qabs (-1)) with 1%Q. rewrite Qmult_1_l. reflexivity.
  - change (Qabs 1) with 1%Q. rewrite Qmult_1_l. reflexivity.
Qed.

Lemma deadzone_finite (s : bool) (m : positive) (e : Z) :
  deadzone (S754_finite s m e) =
  if JS.lt (S754_finite false m e) deadZone then JS.zero else S754_finite s m e.
Proof. reflexivity. Qed.

(** C5. The deadzone filter with threshold 0.05: a well-formed number of
    magnitude below 0.05 is mapped to exactly [0], and one of magnitude at
    least 0.05 (the infinities included) is returned unchanged. *)
Theorem deadzone_threshold (x : JS.number) :
  JS.valid x = true →
  (magnitudeBelow x (5 # 100) → deadzone x = JS.zero) ∧
  (magnitudeAtLeast x (5 # 100) → deadzone x = x).
Proof.
  intros Hv. destruct x as [s | s | | s m e].
  - split; [reflexivity | intros H; vm_compute in H; congruence].
  - split; [intros [] | intros _; destruct s; reflexivity].
  - split; intros [].
  - unfold magnitudeBelow, magnitudeAtLeast. cbn [JS.to_Q].
    pose proof (lt_deadZone_magnitude m e Hv) as Hcmp.
    rewrite deadzone_finite.
    split; intros H; rewrite Qabs_signed_magnitude in H;
      destruct (JS.lt (S754_finite false m e) deadZone); try reflexivity.
    + exfalso. apply (Qlt_irrefl (5 # 100)). eapply Qle_lt_trans; eassumption.
    + exfalso. apply (Qlt_irrefl (5 # 100)). eapply Qle_lt_trans; eassumption.
Qed.

Lemma deadzone_threshold_witness :
  deadzone (JS.decimal 1 2) = JS.zero ∧
  deadzone (JS.decimal (-5) 1) = JS.decimal (-5) 1.
Proof.
  split.
  - apply (deadzone_threshold (JS.decimal 1 2)); [reflexivity|].
    vm_compute. reflexivity.
  - apply (deadzone_threshold (JS.decimal (-5) 1)); [reflexivity|].
    vm_compute. discriminate.
Defined.

(** ** Payload builder *)

Lemma setField_lookup (key : string) (value : JS.number) (p : Payload) (k : string) :
  setField key value p !! k =
  if bool_decide (key = k ∧ k ≠ "__proto__") then Some value else p !! k.
Proof.
  unfold setField.
  destruct (bool_decide_reflect (key = "__proto__")) as [-> | Hkey].
  - rewrite bool_decide_eq_false_2; [reflexivity|]. intros [<- H]. apply H. reflexivity.
  - destruct (decide (key = k)) as [<- | Hne].
    + rewrite bool_decide_eq_true_2 by (split; [reflexivity | exact Hkey]).
      apply lookup_insert_eq.
    + rewrite bool_decide_eq_false_2 by (intros [H _]; contradiction).
      apply lookup_insert_ne. exact Hne.
Qed.

Section PayloadBuilder.

Variable gs : GamepadState.

Lemma buildField_insert (p : Payload) (m : FieldMapping) :
  buildField gs p m = setField (fieldName m) (fieldValue gs m) p.
Proof. unfold buildField, fieldValue. destruct (type m); reflexivity. Qed.

Lemma buildFields_app (p : Payload) (l1 l2 : list FieldMapping) :
  foldl (buildField gs) p (l1 ++ l2) =
  foldl (buildField gs) (foldl (buildField gs) p l1) l2.
Proof. apply foldl_app. Qed.

(** A key no mapping of [l] writes keeps its value. *)
Lemma buildFields_other (l : list FieldMapping) (p : Payload) (k : string) :
  Forall (λ m, fieldName m ≠ k) l →
  foldl (buildField gs) p l !! k = p !! k.
Proof.
  intros H. revert p.
  induction H as [| m l Hm _ IH]; intros p; cbn [foldl]; [reflexivity|].
  rewrite IH, buildField_insert, setField_lookup.
  rewrite bool_decide_eq_false_2; [reflexivity|]. intros [He _]. contradiction.
Qed.

(** No assignment creates the key [__proto__]. *)
Lemma buildFields_proto (l : list FieldMapping) (p : Payload) :
  foldl (buildField gs) p l !! "__proto__" = p !! "__proto__".
Proof.
  revert p. induction l as [| m l IH]; intros p; cbn [foldl]; [reflexivity|].
  rewrite IH, buildField_insert, setField_lookup.
  rewrite bool_decide_eq_false_2; [reflexivity|]. intros [_ H]. apply H. reflexivity.
Qed.

(** The payload holds, under each field name but [__proto__], the value
    of the last mapping with that name. *)
Lemma buildPayload_last_writer (l1 l2 : list FieldMapping) (m : FieldMapping) :
  fieldName m ≠ "__proto__" →
  Forall (λ m', fieldName m' ≠ fieldName m) l2 →
  buildPayload gs (l1 ++ m :: l2) !! fieldName m = Some (fieldValue gs m).
Proof.
  intros Hname H. unfold buildPayload.
  rewrite buildFields_app. cbn [foldl].
  rewrite buildFields_other by exact H.
  rewrite buildField_insert, setField_lookup.
  rewrite bool_decide_eq_true_2 by (split; [reflexivity | exact Hname]).
  reflexivity.
Qed.

Lemma buildFields_mapped (l : list FieldMapping) (p : Payload) (k : string) :
  is_Some (p !! k) ∨ (k ∈ fieldName <$> l ∧ k ≠ "__proto__") →
  is_Some (foldl (buildField gs) p l !! k).
Proof.
  revert p. induction l as [| m l IH]; intros p [H | [H Hk]]; cbn [foldl].
  - exact H.
  - cbn in H. inversion H.
  - apply IH. left. rewrite buildField_insert, setField_lookup.
    destruct (bool_decide _); [eauto | exact H].
  - apply IH. rewrite fmap_cons in H. apply elem_of_cons in H as [-> | H].
    + left. rewrite buildField_insert, setField_lookup.
      rewrite bool_decide_eq_true_2 by (split; [reflexivity | exact Hk]). eauto.
    + right. split; assumption.
Qed.

(** Every mapped field but [__proto__] is present in the payload. *)
Lemma buildPayload_mapped (l : list FieldMapping) (m : FieldMapping) :
  m ∈ l → fieldName m ≠ "__proto__" →
  is_Some (buildPayload gs l !! fieldName m).
Proof.
  intros H Hname. apply buildFields_mapped. right. split; [|exact Hname].
  apply list_elem_of_fmap. exists m. split; [reflexivity | exact H].
Qed.

Lemma buildPayload_proto (l : list FieldMapping) :
  buildPayload gs l !! "__proto__" = None.
Proof. unfold buildPayload. rewrite buildFields_proto. apply lookup_empty. Qed.

Lemma deadzone_zero : deadzone JS.zero = JS.zero.
Proof. vm_compute. reflexivity. Qed.


End PayloadBuilder.




(** ** Mapping table *)

Section MappingTable.

Variables (ty : ChannelType) (idx : nat).

Lemma withoutChannel_none (l : list FieldMapping) :
  filter (sameChannel ty idx) (withoutChannel ty idx l) = [].
Proof.
  unfold withoutChannel. induction l as [| m l IH]; [reflexivity|].
  destruct (decide (sameChannel ty idx m)) as [H | H].
  - rewrite (filter_cons_False (λ m, ¬ sameChannel ty idx m)) by tauto.
    exact IH.
  - rewrite (filter_cons_True (λ m, ¬ sameChannel ty idx m)) by exact H.
    rewrite filter_cons_False by exact H. exact IH.
Qed.

Lemma sublist_channels (l1 l2 : list FieldMapping) :
  l1 `sublist_of` l2 → uniqueChannels l2 → uniqueChannels l1.
Proof.
  unfold uniqueChannels. intros Hsub Hnd.
  apply (sublist_NoDup _ (channelOf <$> l2)); [exact Hnd|].
  clear Hnd. induction Hsub; cbn; constructor; assumption.
Qed.

Lemma withoutChannel_unique (l : list FieldMapping) :
  uniqueChannels l → uniqueChannels (withoutChannel ty idx l).
Proof. apply sublist_channels, sublist_filter. Qed.

Lemma withoutChannel_fresh (l : list FieldMapping) :
  (ty, idx) ∉ channelOf <$> withoutChannel ty idx l.
Proof.
  intros (m & Hm & Hin)%list_elem_of_fmap.
  apply list_elem_of_filter in Hin as [Hne _].
  apply Hne. unfold channelOf in Hm. inversion Hm. split; reflexivity.
Qed.

Lemma addMapping_nonempty (name : string) (l : list FieldMapping) :
  trim name ≠ "" →
  addMapping ty idx name l =
  withoutChannel ty idx l ++ [mkFieldMapping ty idx (trim name)].
Proof.
  intros H. unfold addMapping. rewrite bool_decide_eq_false_2 by exact H.
  reflexivity.
Qed.

Lemma addMapping_empty (name : string) (l : list FieldMapping) :
  trim name = "" → addMapping ty idx name l = l.
Proof.
  intros H. unfold addMapping. rewrite bool_decide_eq_true_2 by exact H.
  reflexivity.
Qed.

Lemma addMapping_unique (name : string) (l : list FieldMapping) :
  uniqueChannels l → uniqueChannels (addMapping ty idx name l).
Proof.
  intros Hl. destruct (decide (trim name = "")) as [He | Hne].
  - rewrite addMapping_empty by exact He. exact Hl.
  - rewrite addMapping_nonempty by exact Hne.
    unfold uniqueChannels. rewrite fmap_app. apply NoDup_app.
    split; [apply withoutChannel_unique, Hl|]. split.
    + intros c Hc Hc'. cbn in Hc'. apply list_elem_of_singleton in Hc'.
      subst c. exact (withoutChannel_fresh l Hc).
    + cbn. apply NoDup_singleton.
Qed.

End MappingTable.

(** C6. Whatever the table holds, inserting a mapping for a (type, index)
    pair leaves exactly one entry for that pair, the inserted one (its name
    trimmed, as [addMapping] stores it); and both [addMapping] and
    [removeMapping] keep a table with at most one mapping per pair that
    way. *)
Theorem addMapping_last_write_wins
    (ty : ChannelType) (idx : nat) (name : string) (l : list FieldMapping) :
  (trim name ≠ "" →
   filter (sameChannel ty idx) (addMapping ty idx name l) =
   [mkFieldMapping ty idx (trim name)]) ∧
  (uniqueChannels l → uniqueChannels (addMapping ty idx name l)) ∧
  (uniqueChannels l → uniqueChannels (removeMapping ty idx l)).
Proof.
  split; [|split].
  - intros Hne. rewrite addMapping_nonempty by exact Hne.
    rewrite filter_app, withoutChannel_none. cbn [app].
    rewrite filter_cons_True by (split; reflexivity). reflexivity.
  - apply addMapping_unique.
  - apply withoutChannel_unique.
Qed.

(** Two insertions for button 0 into a table that already maps it twice. *)
Lemma addMapping_last_write_wins_witness :
  filter (sameChannel button 0)
    (addMapping button 0 " jump "
       (addMapping button 0 "fire"
          [mkFieldMapping button 0 "a"; mkFieldMapping axis 0 "turn";
           mkFieldMapping button 0 "b"])) =
  [mkFieldMapping button 0 "jump"] ∧
  uniqueChannels
    (addMapping button 0 "jump"
       [mkFieldMapping axis 0 "turn"; mkFieldMapping button 0 "fire"]) ∧
  uniqueChannels
    (removeMapping axis 0
       [mkFieldMapping axis 0 "turn"; mkFieldMapping button 0 "fire"]).
Proof.
  split; [|split].
  - apply (addMapping_last_write_wins button 0 " jump "). vm_compute. discriminate.
  - apply (addMapping_last_write_wins button 0 "jump").
    unfold uniqueChannels. compute_done.
  - apply (addMapping_last_write_wins axis 0 "jump").
    unfold uniqueChannels. compute_done.
Defined.

(** ** Change detector *)

Lemma strict_eq_refl (x : JS.number) : x ≠ S754_nan → JS.strict_eq x x = true.
Proof.
  intros Hx. unfold JS.strict_eq, SFeqb.
  destruct x as [[] | [] | | [] m e]; try reflexivity; try congruence;
    cbn [SFcompare]; rewrite Z.compare_refl;
    change (Pos.compare_cont Eq m m) with (m ?= m)%positive;
    rewrite Pos.compare_refl; reflexivity.
Qed.

Lemma or_zero_not_nan (v : option JS.number) : JS.or_zero v ≠ S754_nan.
Proof. destruct v as [[] |]; cbn; unfold JS.zero; congruence. Qed.

Lemma deadzone_not_nan (x : JS.number) : x ≠ S754_nan → deadzone x ≠ S754_nan.
Proof.
  intros Hx. unfold deadzone.
  destruct (JS.lt (JS.abs x) deadZone); [unfold JS.zero; congruence | exact Hx].
Qed.

(** An axis reading is never NaN, so it is strictly equal to itself. *)
Lemma axisReading_steady (gs : GamepadState) (i : nat) :
  JS.strict_neq (axisReading gs i) (axisReading gs i) = false.
Proof.
  unfold JS.strict_neq. rewrite strict_eq_refl; [reflexivity|].
  apply deadzone_not_nan, or_zero_not_nan.
Qed.

Lemma readButtonLatch_insert (b : ButtonLatch) (i : nat) (v : option bool) :
  readButtonLatch (<[i := v]> b) i = v.
Proof. unfold readButtonLatch. rewrite lookup_insert_eq. reflexivity. Qed.

Lemma readButtonLatch_insert_ne (b : ButtonLatch) (i j : nat) (v : option bool) :
  i ≠ j → readButtonLatch (<[i := v]> b) j = readButtonLatch b j.
Proof. intros H. unfold readButtonLatch. rewrite lookup_insert_ne by exact H. reflexivity. Qed.

Section ChangeDetector.

Variable gs : GamepadState.

Lemma scanMappings_snoc (l : list FieldMapping) (m : FieldMapping)
    (b : ButtonLatch) (a : AxisLatch) :
  scanMappings gs (l ++ [m]) b a = scanField gs (scanMappings gs l b a) m.
Proof. unfold scanMappings. rewrite foldl_app. reflexivity. Qed.

Lemma scanField_payload (acc : Scan) (m : FieldMapping) :
  payload (scanField gs acc m) = buildField gs (payload acc) m.
Proof. unfold scanField, buildField. destruct (type m); reflexivity. Qed.

(** The payload of the change-detection branch is the one [buildPayload]
    builds: it has every mapped field, changed or not. *)
Lemma scanMappings_payload (l : list FieldMapping) (b : ButtonLatch) (a : AxisLatch) :
  payload (scanMappings gs l b a) = buildPayload gs l.
Proof.
  induction l as [| m l IH] using rev_ind; [reflexivity|].
  rewrite scanMappings_snoc, scanField_payload, IH.
  unfold buildPayload. rewrite foldl_app. reflexivity.
Qed.

(** What one iteration does to the flag and to what the latches read. *)
Lemma scanField_button (acc : Scan) (m : FieldMapping) :
  type m = button →
  let changed := bool_decide (buttons gs !! index m ≠ readButtonLatch (sentState acc) (index m)) in
  hasChange (scanField gs acc m) = changed || hasChange acc ∧
  axisValues (scanField gs acc m) = axisValues acc ∧
  readButtonLatch (sentState (scanField gs acc m)) (index m) = buttons gs !! index m ∧
  ∀ j, j ≠ index m →
       readButtonLatch (sentState (scanField gs acc m)) j =
       readButtonLatch (sentState acc) j.
Proof.
  intros Hty. unfold scanField. rewrite Hty. cbn zeta.
  destruct (bool_decide_reflect
              (buttons gs !! index m ≠ readButtonLatch (sentState acc) (index m)))
    as [Hne | Heq]; cbn [hasChange axisValues sentState orb].
  - repeat split.
    + apply readButtonLatch_insert.
    + intros j Hj. apply readButtonLatch_insert_ne. congruence.
  - repeat split.
    destruct (decide (buttons gs !! index m =
                      readButtonLatch (sentState acc) (index m))) as [He | Hn].
    + symmetry. exact He.
    + contradiction.
Qed.

Lemma scanField_axis (acc : Scan) (m : FieldMapping) :
  type m = axis →
  let changed :=
    match axisValues acc !! index m with
    | None => true
    | Some last => JS.strict_neq (axisReading gs (index m)) last
    end in
  hasChange (scanField gs acc m) = changed || hasChange acc ∧
  sentState (scanField gs acc m) = sentState acc ∧
  (changed = true →
   axisValues (scanField gs acc m) !! index m = Some (axisReading gs (index m))) ∧
  (changed = false → axisValues (scanField gs acc m) = axisValues acc) ∧
  ∀ j, j ≠ index m →
       axisValues (scanField gs acc m) !! j = axisValues acc !! j.
Proof.
  intros Hty. unfold scanField. rewrite Hty. cbn zeta.
  fold (axisReading gs (index m)).
  destruct (match axisValues acc !! index m with
            | Some last => JS.strict_neq (axisReading gs (index m)) last
            | None => true
            end) eqn:Hc; cbn [hasChange axisValues sentState orb].
  - repeat split.
    + intros _. apply lookup_insert_eq.
    + discriminate.
    + intros j Hj. apply lookup_insert_ne. congruence.
  - repeat split. discriminate.
Qed.

End ChangeDetector.

Section ChangeDetectorInvariant.

Variables (gs : GamepadState) (b : ButtonLatch) (a : AxisLatch).

Lemma scanInvariant_start :
  scanInvariant gs b a []
    {| hasChange := false; payload := ∅; sentState := b; axisValues := a |}.
Proof.
  split; [|split]; cbn.
  - split; [discriminate | intros H; inversion H].
  - intros i. left. reflexivity.
  - intros i. left. reflexivity.
Qed.

Lemma scanInvariant_step (l : list FieldMapping) (acc : Scan) (m : FieldMapping) :
  scanInvariant gs b a l acc →
  scanInvariant gs b a (l ++ [m]) (scanField gs acc m).
Proof.
  intros (Hflag & Hb & Ha).
  destruct (type m) eqn:Hty.
  - destruct (scanField_button gs acc m Hty) as (Hc & Hax & Hread & Hother).
    assert (Hnow : hasChange (scanField gs acc m) = true ↔
                   Exists (channelChanged gs b a) (l ++ [m])).
    { assert (Hm : channelChanged gs b a m ↔
                   buttons gs !! index m ≠ readButtonLatch b (index m))
        by (unfold channelChanged; rewrite Hty; reflexivity).
      rewrite Hc, Exists_app, Exists_cons, Exists_nil, orb_true_iff.
      setoid_rewrite bool_decide_eq_true. rewrite Hflag, Hm.
      destruct (Hb (index m)) as [-> | [Hcur Hset]]; [tauto|].
      rewrite Hcur. apply Hflag in Hset. tauto. }
    split; [exact Hnow|]. split.
    + intros i. destruct (decide (i = index m)) as [-> | Hne].
      * rewrite Hread.
        destruct (bool_decide_reflect
                    (buttons gs !! index m ≠
                     readButtonLatch (sentState acc) (index m))) as [Hd | Hd].
        -- right. split; [reflexivity|]. rewrite Hc. reflexivity.
        -- destruct (Hb (index m)) as [He | [He Hset]].
           ++ left. rewrite <- He.
              destruct (decide (buttons gs !! index m =
                                readButtonLatch (sentState acc) (index m)));
                [assumption | contradiction].
           ++ right. split; [reflexivity|]. rewrite Hc, Hset.
              apply orb_true_r.
      * rewrite (Hother i Hne).
        destruct (Hb i) as [He | [He Hset]]; [left; exact He|].
        right. split; [exact He|]. rewrite Hc, Hset. apply orb_true_r.
    + intros i. rewrite Hax.
      destruct (Ha i) as [He | [He Hset]]; [left; exact He|].
      right. split; [exact He|]. rewrite Hc, Hset. apply orb_true_r.
  - destruct (scanField_axis gs acc m Hty) as (Hc & Hbt & Hyes & Hno & Hother).
    cbn zeta in *.
    set (changed := match axisValues acc !! index m with
                    | Some last => JS.strict_neq (axisReading gs (index m)) last
                    | None => true
                    end) in *.
    assert (Hchanged : changed = true ∨ hasChange acc = true ↔
                       channelChanged gs b a m ∨ hasChange acc = true).
    { unfold channelChanged. rewrite Hty. subst changed.
      destruct (Ha (index m)) as [-> | [Hcur Hset]]; [|tauto].
      destruct (a !! index m); tauto. }
    assert (Hnow : hasChange (scanField gs acc m) = true ↔
                   Exists (channelChanged gs b a) (l ++ [m])).
    { rewrite Hc, Exists_app, Exists_cons, Exists_nil, orb_true_iff.
      rewrite Hchanged, Hflag. tauto. }
    split; [exact Hnow|]. split.
    + intros i. rewrite Hbt.
      destruct (Hb i) as [He | [He Hset]]; [left; exact He|].
      right. split; [exact He|]. rewrite Hc, Hset. apply orb_true_r.
    + intros i. destruct (decide (i = index m)) as [-> | Hne].
      * destruct changed eqn:Hch.
        -- right. split; [apply Hyes; reflexivity|]. rewrite Hc. reflexivity.
        -- rewrite (Hno eq_refl).
           destruct (Ha (index m)) as [He | [He Hset]]; [left; exact He|].
           right. split; [exact He|]. rewrite Hc, Hset. reflexivity.
      * rewrite (Hother i Hne).
        destruct (Ha i) as [He | [He Hset]]; [left; exact He|].
        right. split; [exact He|]. rewrite Hc, Hset. apply orb_true_r.
Qed.

Lemma scanMappings_invariant (l : list FieldMapping) :
  scanInvariant gs b a l (scanMappings gs l b a).
Proof.
  induction l as [| m l IH] using rev_ind.
  - apply scanInvariant_start.
  - rewrite scanMappings_snoc. apply scanInvariant_step, IH.
Qed.

(** The loop raises its flag exactly when some mapped channel changed
    against the latches it started from. *)
Lemma scanMappings_hasChange (l : list FieldMapping) :
  hasChange (scanMappings gs l b a) = true ↔
  ∃ m, m ∈ l ∧ channelChanged gs b a m.
Proof.
  destruct (scanMappings_invariant l) as (Hflag & _).
  rewrite Hflag, Exists_exists. reflexivity.
Qed.

End ChangeDetectorInvariant.

Section SteadyState.

Variable gs : GamepadState.

Lemma latched_unchanged (b : ButtonLatch) (a : AxisLatch) (m : FieldMapping) :
  latched gs b a m ↔ ¬ channelChanged gs b a m.
Proof.
  unfold latched, channelChanged. destruct (type m).
  - split; [intros H Hne; apply Hne; symmetry; exact H|].
    intros H.
    destruct (decide (readButtonLatch b (index m) = buttons gs !! index m))
      as [He | Hne]; [exact He|].
    exfalso. apply H. congruence.
  - destruct (a !! index m) as [last |].
    + split.
      * intros (last' & [= <-] & Hs). rewrite Hs. discriminate.
      * intros H. exists last. split; [reflexivity|].
        destruct (JS.strict_neq (axisReading gs (index m)) last);
          [exfalso; apply H|]; reflexivity.
    + split; [intros (last & [=] & _) | intros H; exfalso; apply H; exact I].
Qed.

(** An iteration leaves the channel it visited latched, and keeps the
    channels that already were. *)
Lemma scanField_latches (acc : Scan) (m : FieldMapping) :
  latched gs (sentState (scanField gs acc m)) (axisValues (scanField gs acc m)) m.
Proof.
  unfold latched. destruct (type m) eqn:Hty.
  - destruct (scanField_button gs acc m Hty) as (_ & _ & Hread & _).
    exact Hread.
  - destruct (scanField_axis gs acc m Hty) as (_ & _ & Hyes & Hno & _).
    cbn zeta in *.
    destruct (axisValues acc !! index m) as [last |] eqn:Hl.
    + destruct (JS.strict_neq (axisReading gs (index m)) last) eqn:Hs.
      * exists (axisReading gs (index m)).
        split; [apply Hyes; reflexivity | apply axisReading_steady].
      * exists last. rewrite (Hno eq_refl). split; [exact Hl | exact Hs].
    + exists (axisReading gs (index m)).
      split; [apply Hyes; reflexivity | apply axisReading_steady].
Qed.

Lemma scanField_keeps_latched (acc : Scan) (m m' : FieldMapping) :
  latched gs (sentState acc) (axisValues acc) m' →
  latched gs (sentState (scanField gs acc m)) (axisValues (scanField gs acc m)) m'.
Proof.
  intros H.
  destruct (decide (channelOf m' = channelOf m)) as [He | Hne].
  - unfold channelOf in He. injection He as Hty Hidx.
    pose proof (scanField_latches acc m) as Hm.
    unfold latched in *. rewrite Hty, Hidx. exact Hm.
  - unfold latched in *. destruct (type m) eqn:Hty.
    + destruct (scanField_button gs acc m Hty) as (_ & Hax & _ & Hother).
      destruct (type m') eqn:Hty'.
      * rewrite Hother; [exact H|].
        intros Hi. apply Hne. unfold channelOf. congruence.
      * rewrite Hax. exact H.
    + destruct (scanField_axis gs acc m Hty) as (_ & Hbt & _ & _ & Hother).
      destruct (type m') eqn:Hty'.
      * rewrite Hbt. exact H.
      * rewrite Hother; [exact H|].
        intros Hi. apply Hne. unfold channelOf. congruence.
Qed.

Lemma scanMappings_latches (l : list FieldMapping) (b : ButtonLatch) (a : AxisLatch)
    (m : FieldMapping) :
  m ∈ l →
  latched gs (sentState (scanMappings gs l b a)) (axisValues (scanMappings gs l b a)) m.
Proof.
  induction l as [| m' l IH] using rev_ind; [intros H; inversion H|].
  intros [H | H%list_elem_of_singleton]%elem_of_app; rewrite scanMappings_snoc.
  - apply scanField_keeps_latched, IH, H.
  - subst m'. apply scanField_latches.
Qed.

(** Steady state: scanning the same snapshot again right after a scan
    raises no flag. *)
Lemma scanMappings_steady (l : list FieldMapping) (b : ButtonLatch) (a : AxisLatch) :
  let sc := scanMappings gs l b a in
  hasChange (scanMappings gs l (sentState sc) (axisValues sc)) = false.
Proof.
  cbn zeta. apply not_true_is_false. intros H.
  apply scanMappings_hasChange in H as (m & Hin & Hch).
  apply (proj1 (latched_unchanged _ _ m)) in Hch; [exact Hch|].
  apply scanMappings_latches, Hin.
Qed.

(** A table without a mapping for a channel leaves that channel's latch
    entry as it was. *)
Lemma scanMappings_untouched (l : list FieldMapping) (b : ButtonLatch) (a : AxisLatch)
    (ty : ChannelType) (idx : nat) :
  Forall (λ m, ¬ sameChannel ty idx m) l →
  match ty with
  | button => sentState (scanMappings gs l b a) !! idx = b !! idx
  | axis => axisValues (scanMappings gs l b a) !! idx = a !! idx
  end.
Proof.
  induction l as [| m l IH] using rev_ind; intros H.
  - destruct ty; reflexivity.
  - apply Forall_app in H as [Hl Hm]. rewrite Forall_singleton in Hm.
    specialize (IH Hl). rewrite scanMappings_snoc.
    unfold scanField. unfold sameChannel in Hm.
    destruct (type m) eqn:Hty; destruct ty; cbn zeta;
      cbn [sentState axisValues]; try exact IH.
    + destruct (bool_decide _); [|exact IH].
      rewrite lookup_insert_ne; [exact IH | intros Hi; apply Hm; split; congruence].
    + destruct (match axisValues (scanMappings gs l b a) !! index m with
                | Some last => _ | None => true end); [|exact IH].
      rewrite lookup_insert_ne; [exact IH | intros Hi; apply Hm; split; congruence].
Qed.

End SteadyState.

(** ** The streaming effect *)

Section Effect.

Variable transport : nat → PublishOutcome.

Lemma sendPayload_wire (p : Payload) (st : Dashboard) :
  wire (sendPayload transport p st) = wire st ++ [p].
Proof. unfold sendPayload. destruct (transport _); reflexivity. Qed.

Lemma sendPayload_lastMessage_eq (p : Payload) (st : Dashboard) :
  lastMessage (sendPayload transport p st) =
  match transport (length (wire st)) with
  | Returned => Some p
  | Threw => lastMessage st
  end.
Proof. unfold sendPayload. destruct (transport _); reflexivity. Qed.

(** The effect in ChangeDetect mode, once its guard has passed. *)
Lemma streamingEffect_onChange (now : Z) (st : Dashboard) (gs : GamepadState) :
  gamepadState st = Some gs → effectGuard st = true → sendByInterval st = false →
  let sc := scanMappings gs (mappings st) (lastSentState st) (lastAxisValues st) in
  let st' := set_lastAxisValues (axisValues sc) (set_lastSentState (sentState sc) st) in
  streamingEffect transport now st =
  if hasChange sc then sendPayload transport (payload sc) st' else st'.
Proof.
  intros Hgs Hg Hi. unfold streamingEffect. rewrite Hgs, Hg, Hi. reflexivity.
Qed.

(** What a ChangeDetect tick puts on the wire. *)
Lemma streamingEffect_onChange_wire (now : Z) (st : Dashboard) (gs : GamepadState) :
  gamepadState st = Some gs → effectGuard st = true → sendByInterval st = false →
  wire (streamingEffect transport now st) =
  wire st ++
  (if decide (Exists (channelChanged gs (lastSentState st) (lastAxisValues st))
                (mappings st))
   then [buildPayload gs (mappings st)] else []).
Proof.
  intros Hgs Hg Hi. rewrite (streamingEffect_onChange now st gs Hgs Hg Hi).
  cbn zeta.
  pose proof (scanMappings_hasChange gs (lastSentState st) (lastAxisValues st)
                (mappings st)) as Hch.
  rewrite <- Exists_exists in Hch.
  destruct (hasChange _) eqn:Hc.
  - rewrite sendPayload_wire, scanMappings_payload. cbn [wire set_lastAxisValues set_lastSentState].
    rewrite decide_True by (apply Hch; reflexivity). reflexivity.
  - cbn [wire set_lastAxisValues set_lastSentState].
    rewrite decide_False; [rewrite app_nil_r; reflexivity|].
    intros H. apply Hch in H. discriminate.
Qed.

(** When the guard fails the effect does nothing. *)
Lemma streamingEffect_guarded (now : Z) (st : Dashboard) :
  effectGuard st = false → streamingEffect transport now st = st.
Proof.
  intros Hg. unfold streamingEffect. rewrite Hg.
  destruct (gamepadState st); reflexivity.
Qed.

End Effect.

(** ** Claims on the streaming session *)

(** C10. A publish attempt, from either mode, leaves the last-message cell
    as it was when the transport call throws, and sets it to the payload
    just built when the call returns; the call itself is made in both
    cases. *)
Theorem lastMessage_only_after_return
    (transport : nat → PublishOutcome) (now : Z) (st : Dashboard) (gs : GamepadState)
    (t : Timer) (p : Payload) :
  (lastMessage (sendPayload transport p st) =
   match transport (length (wire st)) with
   | Returned => Some p
   | Threw => lastMessage st
   end) ∧
  (intervalId st = Some t →
   wire (intervalFire transport st) =
     wire st ++ [buildPayload (closure_gamepadState t) (closure_mappings t)] ∧
   lastMessage (intervalFire transport st) =
   match transport (length (wire st)) with
   | Returned => Some (buildPayload (closure_gamepadState t) (closure_mappings t))
   | Threw => lastMessage st
   end) ∧
  (gamepadState st = Some gs → effectGuard st = true → sendByInterval st = false →
   lastMessage (streamingEffect transport now st) =
   if decide (Exists (channelChanged gs (lastSentState st) (lastAxisValues st))
                (mappings st))
   then match transport (length (wire st)) with
        | Returned => Some (buildPayload gs (mappings st))
        | Threw => lastMessage st
        end
   else lastMessage st).
Proof.
  split; [apply sendPayload_lastMessage_eq|]. split.
  - intros Ht. unfold intervalFire. rewrite Ht.
    rewrite sendPayload_wire, sendPayload_lastMessage_eq. split; reflexivity.
  - intros Hgs Hg Hi.
    rewrite (streamingEffect_onChange transport now st gs Hgs Hg Hi). cbn zeta.
    pose proof (scanMappings_hasChange gs (lastSentState st) (lastAxisValues st)
                  (mappings st)) as Hch.
    rewrite <- Exists_exists in Hch.
    destruct (hasChange _) eqn:Hc.
    + rewrite sendPayload_lastMessage_eq, scanMappings_payload.
      rewrite decide_True by (apply Hch; reflexivity). reflexivity.
    + rewrite decide_False; [reflexivity|].
      intros H. apply Hch in H. discriminate.
Qed.

(** A timer fire and a change-detection tick against a transport that
    throws: the cell keeps [None]. *)
Lemma lastMessage_only_after_return_witness :
  lastMessage (intervalFire alwaysThrows streamingAt10Hz) =
    lastMessage streamingAt10Hz ∧
  lastMessage
    (streamingEffect alwaysThrows 0
       (set_lastAxisValues ∅ (set_lastMessage None streamingOnChange))) = None.
Proof.
  split.
  - destruct (intervalId streamingAt10Hz) as [t |] eqn:Ht; [|vm_compute in Ht; discriminate].
    destruct (lastMessage_only_after_return alwaysThrows 0 streamingAt10Hz
                padAtRest t ∅) as (_ & Hfire & _).
    destruct (Hfire Ht) as [_ Hlast]. exact Hlast.
  - destruct (lastMessage_only_after_return alwaysThrows 0
                (set_lastAxisValues ∅ (set_lastMessage None streamingOnChange))
                padAtRest (mkTimer 1 0 padAtRest []) ∅) as (_ & _ & Htick).
    rewrite Htick by (vm_compute; reflexivity).
    destruct (decide _); reflexivity.
Defined.

(** C1, at the input where the code departs from it.  A ChangeDetect
    session streams a table whose only mapping is button 5 of a pad with
    two buttons: the channel has no latch, yet no tick publishes.  The
    button branch compares the raw reading with the raw latch, and both are
    [undefined]. *)
Theorem unread_button_never_published :
  isStreaming streamingButton5 = true ∧
  sendByInterval streamingButton5 = false ∧
  mappings streamingButton5 = [mkFieldMapping button 5 "fire"] ∧
  latchMissing (lastSentState streamingButton5) (lastAxisValues streamingButton5)
    (mkFieldMapping button 5 "fire") ∧
  wire streamingButton5 = [] ∧
  wire (run alwaysReturns (frames padAtRest 48 10) streamingButton5) = [].
Proof. vm_compute. repeat split; reflexivity. Qed.

(** *** Stopping and restarting *)





(** *** Removing and re-adding a mapping *)

Lemma withoutChannel_absent (ty : ChannelType) (idx : nat) (l : list FieldMapping) :
  Forall (λ m, ¬ sameChannel ty idx m) l → withoutChannel ty idx l = l.
Proof.
  unfold withoutChannel. induction 1 as [| m l Hm _ IH]; [reflexivity|].
  rewrite filter_cons_True by exact Hm. rewrite IH. reflexivity.
Qed.

(** Whether a channel counts as changed depends on its own latch entry
    only. *)
Lemma channelChanged_own_entry (gs : GamepadState) (b b' : ButtonLatch)
    (a a' : AxisLatch) (m : FieldMapping) :
  match type m with
  | button => b' !! index m = b !! index m
  | axis => a' !! index m = a !! index m
  end →
  channelChanged gs b' a' m ↔ channelChanged gs b a m.
Proof.
  unfold channelChanged, readButtonLatch.
  destruct (type m); intros ->; reflexivity.
Qed.

(** The loop on a table that lacks a channel leaves the channel's latch
    entry alone; on the table with the channel added again it judges the
    channel against that entry. *)
Lemma readd_scan_meets_entry
    (gs gs' : GamepadState) (l : list FieldMapping) (b : ButtonLatch) (a : AxisLatch)
    (ty : ChannelType) (idx : nat) (name : string) :
  Forall (λ m, ¬ sameChannel ty idx m) l →
  trim name ≠ "" →
  let sc := scanMappings gs l b a in
  match ty with
  | button => sentState sc !! idx = b !! idx
  | axis => axisValues sc !! idx = a !! idx
  end ∧
  (hasChange (scanMappings gs' (addMapping ty idx name l)
                (sentState sc) (axisValues sc)) = true ↔
   Exists (channelChanged gs' (sentState sc) (axisValues sc)) l ∨
   channelChanged gs' b a (mkFieldMapping ty idx (trim name))).
Proof.
  intros Habs Hname. cbn zeta.
  pose proof (scanMappings_untouched gs l b a ty idx Habs) as Hkept.
  split; [exact Hkept|].
  rewrite addMapping_nonempty by exact Hname.
  rewrite withoutChannel_absent by exact Habs.
  rewrite scanMappings_hasChange. setoid_rewrite elem_of_app.
  rewrite <- (channelChanged_own_entry gs' b _ a _ (mkFieldMapping ty idx (trim name)))
    by (destruct ty; exact Hkept).
  rewrite Exists_exists. split.
  - intros (m & [Hm | Hm%list_elem_of_singleton] & Hch).
    + left. eauto.
    + right. subst m. exact Hch.
  - intros [(m & Hm & Hch) | Hch].
    + exists m. split; [left; exact Hm | exact Hch].
    + eexists. split; [right; apply list_elem_of_singleton; reflexivity | exact Hch].
Qed.

(** C9 fails as stated: axis 0 is unmapped and mapped again during the
    session, and the ticks after the re-adding publish nothing, because the
    latch still holds the value the axis has. *)
Lemma readded_mapping_not_republished :
  let removed :=
    run alwaysReturns
      [(100, RemoveClick axis 0); (116, AnimationFrame padAtRest)]%Z
      streamingTwoChannels in
  let readded :=
    run alwaysReturns
      ([(120, MappingInputBlur axis 0 "turn")]%Z ++ frames padAtRest 120 3)
      removed in
  mappings removed = [mkFieldMapping button 0 "fire"] ∧
  lastAxisValues removed !! 0 = Some (JS.decimal 5 1) ∧
  mappings readded = [mkFieldMapping button 0 "fire"; mkFieldMapping axis 0 "turn"] ∧
  isStreaming readded = true ∧
  wire readded = wire streamingTwoChannels.
Proof. vm_compute. repeat split; reflexivity. Qed.

(** *** Interval mode *)

(** C3, at the input where the code departs from it.  An IntervalDriven
    session at [sendHz = 10] holds a 100 ms interval, and left alone it
    fires ten times in 1000 ms; but [gamepadState] is a dependency of the
    streaming effect, so every animation frame clears the interval and arms
    a new one.  With a frame every 16 ms the interval never comes due: over
    63 frames (1008 ms) nothing is published. *)
Theorem interval_rearmed_by_every_frame :
  isStreaming streamingAt10Hz = true ∧
  sendByInterval streamingAt10Hz = true ∧
  sendHz streamingAt10Hz = JS.of_Z 10 ∧
  (period <$> intervalId streamingAt10Hz) = Some 100%Z ∧
  length (wire (advance alwaysReturns 1000 streamingAt10Hz)) = 10 ∧
  wire (run alwaysReturns (frames padAtRest 0 63) streamingAt10Hz) = [] ∧
  (due <$> intervalId (run alwaysReturns (frames padAtRest 0 63) streamingAt10Hz)) =
    Some 1108%Z.
Proof. vm_compute. repeat split; reflexivity. Qed.

(** *** Configuration *)

(** C7, at the input where the code departs from it.  A stored or shared
    configuration with [sendHz = 1000] is loaded as it is, by
    [handleLoadConfig] and by the mount effect alike: neither clamps, while
    the input handler would have stored 100. *)
Theorem loaded_sendHz_not_clamped :
  sendHz (handleLoadConfig configFast initial) = JS.of_Z 1000 ∧
  sendHzInRange (sendHz (handleLoadConfig configFast initial)) = false ∧
  sendHz (mount (Some configFast)) = JS.of_Z 1000 ∧
  sendHzInRange (sendHz (mount (Some configFast))) = false ∧
  clampSendHz (JS.of_Z 1000) = JS.of_Z 100.
Proof. vm_compute. repeat split; reflexivity. Qed.

(** C8, at the input where the code departs from it.  During a streaming
    session the Load button of the configuration panel is available, and
    loading a configuration overwrites [sendHz] and [sendByInterval]. *)
Theorem load_config_mutates_while_streaming :
  reachable alwaysReturns streamingOnChange ∧
  isStreaming streamingOnChange = true ∧
  available streamingOnChange (LoadConfig configFast) = true ∧
  sendHz streamingOnChange = JS.of_Z 2 ∧
  sendByInterval streamingOnChange = false ∧
  let st := step alwaysReturns 100 (LoadConfig configFast) streamingOnChange in
  isStreaming st = true ∧
  sendHz st = JS.of_Z 1000 ∧
  sendByInterval st = true.
Proof.
  split.
  - exists None. eexists. reflexivity.
  - vm_compute. repeat split; reflexivity.
Qed.

(** * Further properties of the engine *)

(** ** Change detection *)

(** The change-detection loop raises its flag exactly when some mapped
    channel changed against the latches the tick started from: a button
    whose reading differs from what its latch holds, an axis without a
    latch or with a different filtered value. *)
Theorem changeDetect_flag_iff
    (gs : GamepadState) (l : list FieldMapping) (b : ButtonLatch) (a : AxisLatch) :
  hasChange (scanMappings gs l b a) = true ↔
  ∃ m, m ∈ l ∧ channelChanged gs b a m.
Proof. apply scanMappings_hasChange. Qed.

(** The payload the change-detection branch builds is the one
    [buildPayload] builds from the same snapshot and table, whichever
    channels changed and whatever the latches hold: it has an entry for
    every mapped field name other than [__proto__], and none for that
    one. *)
Theorem changeDetect_payload_complete
    (gs : GamepadState) (l : list FieldMapping) (b : ButtonLatch) (a : AxisLatch) :
  payload (scanMappings gs l b a) = buildPayload gs l ∧
  (∀ m, m ∈ l → fieldName m ≠ "__proto__" →
        is_Some (payload (scanMappings gs l b a) !! fieldName m)) ∧
  payload (scanMappings gs l b a) !! "__proto__" = None.
Proof.
  rewrite scanMappings_payload. split; [reflexivity|]. split.
  - intros m Hm Hname. apply buildPayload_mapped; assumption.
  - apply buildPayload_proto.
Qed.

Lemma scanField_quiet (gs : GamepadState) (acc : Scan) (m : FieldMapping) :
  hasChange (scanField gs acc m) = false →
  hasChange acc = false ∧
  sentState (scanField gs acc m) = sentState acc ∧
  axisValues (scanField gs acc m) = axisValues acc.
Proof.
  unfold scanField. destruct (type m); cbn zeta.
  - destruct (bool_decide _); cbn [hasChange sentState axisValues];
      [discriminate | intros H; repeat split; exact H].
  - destruct (match axisValues acc !! index m with Some _ => _ | None => _ end);
      cbn [hasChange sentState axisValues];
      [discriminate | intros H; repeat split; exact H].
Qed.

Lemma scanMappings_quiet (gs : GamepadState) (l : list FieldMapping)
    (b : ButtonLatch) (a : AxisLatch) :
  hasChange (scanMappings gs l b a) = false →
  sentState (scanMappings gs l b a) = b ∧ axisValues (scanMappings gs l b a) = a.
Proof.
  induction l as [| m l IH] using rev_ind; [intros _; split; reflexivity|].
  rewrite scanMappings_snoc. intros H.
  apply scanField_quiet in H as (H & -> & ->). apply IH, H.
Qed.

(** Steady state: a second tick on the same snapshot finds every mapped
    channel latched, raises no flag and leaves both latch maps as the first
    tick left them. *)
Theorem changeDetect_steady_state
    (gs : GamepadState) (l : list FieldMapping) (b : ButtonLatch) (a : AxisLatch) :
  let first := scanMappings gs l b a in
  let second := scanMappings gs l (sentState first) (axisValues first) in
  hasChange second = false ∧
  sentState second = sentState first ∧
  axisValues second = axisValues first.
Proof.
  cbn zeta. pose proof (scanMappings_steady gs l b a) as H. cbn zeta in H.
  split; [exact H|]. apply scanMappings_quiet, H.
Qed.

(** A tick that raises no flag writes no latch. *)
Theorem changeDetect_quiet_tick_keeps_latches
    (gs : GamepadState) (l : list FieldMapping) (b : ButtonLatch) (a : AxisLatch) :
  hasChange (scanMappings gs l b a) = false →
  sentState (scanMappings gs l b a) = b ∧ axisValues (scanMappings gs l b a) = a.
Proof. apply scanMappings_quiet. Qed.

Lemma changeDetect_quiet_tick_keeps_latches_witness :
  let first := scanMappings padAtRest [mkFieldMapping axis 0 "turn"] ∅ ∅ in
  axisValues (scanMappings padAtRest [mkFieldMapping axis 0 "turn"]
                (sentState first) (axisValues first)) = axisValues first.
Proof.
  cbn zeta.
  apply (changeDetect_quiet_tick_keeps_latches padAtRest
           [mkFieldMapping axis 0 "turn"]).
  vm_compute. reflexivity.
Defined.

(** First observation: a mapped axis without a latch, or a mapped button
    the snapshot has and whose latch reads nothing, makes the tick raise
    its flag. *)
Theorem changeDetect_first_observation
    (gs : GamepadState) (l : list FieldMapping) (b : ButtonLatch) (a : AxisLatch)
    (m : FieldMapping) :
  m ∈ l →
  match type m with
  | button => index m < length (buttons gs) ∧ readButtonLatch b (index m) = None
  | axis => a !! index m = None
  end →
  hasChange (scanMappings gs l b a) = true.
Proof.
  intros Hin Hm. apply scanMappings_hasChange. exists m. split; [exact Hin|].
  unfold channelChanged. destruct (type m).
  - destruct Hm as [Hlt Hnone]. rewrite Hnone.
    apply lookup_lt_is_Some_2 in Hlt as [v Hv]. rewrite Hv. discriminate.
  - rewrite Hm. exact I.
Qed.

Lemma changeDetect_first_observation_witness :
  hasChange
    (scanMappings padAtRest
       [mkFieldMapping button 0 "fire"; mkFieldMapping axis 3 "lift"] ∅ ∅) = true.
Proof.
  apply (changeDetect_first_observation padAtRest _ ∅ ∅
           (mkFieldMapping button 0 "fire")).
  - apply list_elem_of_here.
  - split; [cbn; lia | reflexivity].
Defined.

(** ** Events and the effect *)

(** No handler publishes or touches the last-message cell, the latches or
    the live interval; those belong to the effect. *)
Lemma handle_keeps (ev : Event) (st : Dashboard) :
  wire (handle ev st).1 = wire st ∧
  lastMessage (handle ev st).1 = lastMessage st ∧
  lastSentState (handle ev st).1 = lastSentState st ∧
  lastAxisValues (handle ev st).1 = lastAxisValues st ∧
  intervalId (handle ev st).1 = intervalId st.
Proof.
  destruct ev; cbn [handle]; repeat case_match; cbn;
    try (repeat split; reflexivity).
  all: unfold handleLoadConfig; repeat case_match; cbn; repeat split; reflexivity.
Qed.

Lemma effectGuard_cleanup (st : Dashboard) :
  effectGuard (effectCleanup st) = effectGuard st.
Proof. reflexivity. Qed.

Section Steps.

Variable transport : nat → PublishOutcome.

Lemma step_unfold (now : Z) (ev : Event) (st : Dashboard) :
  step transport now ev st =
  if available st ev then
    if (handle ev st).2
    then streamingEffect transport now (effectCleanup (handle ev st).1)
    else (handle ev st).1
  else st.
Proof. unfold step. destruct (handle ev st). reflexivity. Qed.

(** An event whose handler leaves the guard of the effect closed (not
    streaming, no connection, no snapshot or an empty table) publishes
    nothing. *)
Theorem silent_while_guard_closed (now : Z) (ev : Event) (st : Dashboard) :
  effectGuard (handle ev st).1 = false →
  wire (step transport now ev st) = wire st ∧
  lastMessage (step transport now ev st) = lastMessage st ∧
  lastSentState (step transport now ev st) = lastSentState st ∧
  lastAxisValues (step transport now ev st) = lastAxisValues st.
Proof.
  intros Hg. rewrite step_unfold.
  destruct (handle_keeps ev st) as (Hw & Hl & Hb & Ha & _).
  destruct (available st ev); [|repeat split; reflexivity].
  destruct (handle ev st).2.
  - rewrite streamingEffect_guarded by (rewrite effectGuard_cleanup; exact Hg).
    cbn. repeat split; assumption.
  - repeat split; assumption.
Qed.

(** A snapshot arriving in an open ChangeDetect session: the full payload
    is published when, and only when, the loop raised its flag; the latches
    become those of the loop and no interval is armed. *)
Theorem frame_on_change (now : Z) (gs : GamepadState) (st : Dashboard) :
  sessionOpen st → sendByInterval st = false →
  let sc := scanMappings gs (mappings st) (lastSentState st) (lastAxisValues st) in
  let st' := step transport now (AnimationFrame gs) st in
  wire st' = wire st ++ (if hasChange sc then [buildPayload gs (mappings st)] else []) ∧
  lastSentState st' = sentState sc ∧
  lastAxisValues st' = axisValues sc ∧
  intervalId st' = None ∧
  sessionOpen st' ∧ sendByInterval st' = false.
Proof.
  intros (Hs & Hn & Hsel & Hm) Hi. cbn zeta.
  rewrite step_unfold. cbn [available handle fst snd].
  rewrite bool_decide_eq_true_2 by exact Hsel.
  assert (Hg : effectGuard (effectCleanup (set_gamepadState (Some gs) st)) = true).
  { unfold effectGuard. cbn. rewrite Hs, Hn. cbn.
    rewrite (bool_decide_eq_true_2 _ Hm). reflexivity. }
  rewrite (streamingEffect_onChange transport now _ gs); [| reflexivity | exact Hg | exact Hi].
  cbn zeta. cbn [mappings lastSentState lastAxisValues effectCleanup
                 set_intervalId set_gamepadState].
  destruct (hasChange _) eqn:Hc.
  - rewrite sendPayload_wire, scanMappings_payload.
    unfold sendPayload, sessionOpen. destruct (transport _); cbn;
      repeat split; assumption.
  - unfold sessionOpen. cbn. rewrite app_nil_r. repeat split; assumption.
Qed.

End Steps.

Lemma silent_while_guard_closed_witness :
  wire (step alwaysReturns 5 (AnimationFrame padAtRest)
          (run alwaysReturns setUp initial)) = [].
Proof.
  destruct (silent_while_guard_closed alwaysReturns 5 (AnimationFrame padAtRest)
              (run alwaysReturns setUp initial)) as [Hw _].
  - vm_compute. reflexivity.
  - rewrite Hw. vm_compute. reflexivity.
Defined.

Lemma frame_on_change_witness :
  wire (step alwaysReturns 64 (AnimationFrame padAtRest) streamingOnChange) =
  wire streamingOnChange.
Proof.
  destruct (frame_on_change alwaysReturns 64 padAtRest streamingOnChange) as [Hw _].
  - unfold sessionOpen. vm_compute. repeat split; eauto. discriminate.
  - vm_compute. reflexivity.
  - rewrite Hw. vm_compute. reflexivity.
Defined.


(** ** Interval mode *)

Section Interval.

Variable transport : nat → PublishOutcome.

Lemma frame_in_interval_mode (now : Z) (gs : GamepadState) (st : Dashboard) :
  sessionOpen st → sendByInterval st = true →
  let st' := step transport now (AnimationFrame gs) st in
  wire st' = wire st ∧
  lastSentState st' = lastSentState st ∧
  lastAxisValues st' = lastAxisValues st ∧
  intervalId st' =
    Some (mkTimer (intervalPeriod (sendHz st)) (now + intervalPeriod (sendHz st))
            gs (mappings st)) ∧
  sendHz st' = sendHz st ∧
  sessionOpen st' ∧ sendByInterval st' = true.
Proof.
  intros (Hs & Hn & Hsel & Hm) Hi. cbn zeta.
  rewrite step_unfold. cbn [available handle fst snd].
  rewrite bool_decide_eq_true_2 by exact Hsel.
  unfold streamingEffect, effectGuard, sessionOpen. cbn.
  rewrite Hs, Hn, Hi. cbn. rewrite (bool_decide_eq_true_2 _ Hm). cbn.
  repeat split; assumption.
Qed.

(** A snapshot arriving in an open IntervalDriven session publishes
    nothing and leaves the latches alone; it discards the live interval and
    arms a new one, a full period after the snapshot's arrival, closed over
    the new snapshot. *)
Theorem frame_rearms_interval (now : Z) (gs : GamepadState) (st : Dashboard) :
  sessionOpen st → sendByInterval st = true →
  let st' := step transport now (AnimationFrame gs) st in
  wire st' = wire st ∧
  lastSentState st' = lastSentState st ∧
  lastAxisValues st' = lastAxisValues st ∧
  intervalId st' =
    Some (mkTimer (intervalPeriod (sendHz st)) (now + intervalPeriod (sendHz st))
            gs (mappings st)) ∧
  sendHz st' = sendHz st ∧
  sessionOpen st' ∧ sendByInterval st' = true.
Proof. apply frame_in_interval_mode. Qed.

(** Starvation: animation frames that each arrive before the interval
    armed by the previous one comes due let no timer callback run, however
    many they are. *)
Theorem interval_starved_by_frames
    (evs : list (Z * Event)) (st : Dashboard) (tm : Timer) :
  sessionOpen st → sendByInterval st = true →
  intervalId st = Some tm → period tm = intervalPeriod (sendHz st) →
  framesBeforeDue (period tm) (due tm) evs →
  wire (run transport evs st) = wire st.
Proof.
  revert st tm. induction evs as [| [t ev] evs IH]; intros st tm Ho Hi Htm Hp Hev.
  - reflexivity.
  - cbn [framesBeforeDue] in Hev. destruct ev; try contradiction.
    destruct Hev as [Hlt Hev]. cbn [run].
    assert (Hadv : advance transport t st = st).
    { unfold advance. rewrite Htm.
      destruct (Z.to_nat _); cbn [fireDue]; [reflexivity|].
      rewrite Htm. rewrite (proj2 (Z.leb_gt (due tm) t)) by exact Hlt.
      reflexivity. }
    rewrite Hadv.
    destruct (frame_in_interval_mode t gs st Ho Hi)
      as (Hw & _ & _ & Htm' & Hhz & Ho' & Hi').
    rewrite <- Hw.
    apply (IH _ _ Ho' Hi' Htm').
    + cbn [period]. rewrite Hhz. reflexivity.
    + cbn [period due]. rewrite <- Hp. exact Hev.
Qed.

Lemma fireDue_count (fuel : nat) (t : Z) (st : Dashboard) (tm : Timer) :
  intervalId st = Some tm → (0 < period tm)%Z →
  fuel = Z.to_nat ((t - due tm) / period tm + 1) →
  length (wire (fireDue transport fuel t st)) =
  length (wire st) + (if (due tm <=? t)%Z then fuel else 0).
Proof.
  revert st tm. induction fuel as [| fuel IH]; intros st tm Htm Hp Hfuel.
  - cbn. destruct (due tm <=? t)%Z; lia.
  - cbn [fireDue]. rewrite Htm.
    destruct (Z.leb_spec (due tm) t) as [Hle | Hgt].
    + set (tm' := mkTimer (period tm) (due tm + period tm)
                    (closure_gamepadState tm) (closure_mappings tm)).
      assert (Hfire : intervalId (intervalFire transport st) = Some tm').
      { unfold intervalFire, sendPayload. rewrite Htm.
        destruct (transport _); reflexivity. }
      assert (Hw : length (wire (intervalFire transport st)) = S (length (wire st))).
      { unfold intervalFire. rewrite Htm, sendPayload_wire, length_app. cbn. lia. }
      assert (Hdiv : ((t - due tm) / period tm + 1 =
                      (t - (due tm + period tm)) / period tm + 1 + 1)%Z).
      { replace (t - due tm)%Z with ((t - (due tm + period tm)) + 1 * period tm)%Z by lia.
        rewrite Z.div_add by lia. lia. }
      assert (Hfuel' : fuel = Z.to_nat ((t - due tm') / period tm' + 1)).
      { subst tm'. cbn [period due]. rewrite Hdiv in Hfuel.
        generalize dependent ((t - (due tm + period tm)) / period tm)%Z.
        intros q Hq _. lia. }
      rewrite (IH _ tm' Hfire Hp Hfuel').
      rewrite Hw. subst tm'. cbn [due period] in *.
      destruct (Z.leb_spec (due tm + period tm) t) as [Hle' | Hgt']; [lia|].
      assert (fuel = 0%nat); [|lia].
      assert ((t - (due tm + period tm)) / period tm = -1)%Z; [|lia].
      symmetry. apply (Z.div_unique _ _ _ (t - due tm)); lia.
    + exfalso.
      assert ((t - due tm) / period tm < 0)%Z by (apply Z.div_lt_upper_bound; lia).
      lia.
Qed.

(** Left alone, the interval fires once every period: by time [t] the
    number of publish calls since the interval was armed is the number of
    due times that have passed. *)
Theorem interval_rate_when_undisturbed (t : Z) (st : Dashboard) (tm : Timer) :
  intervalId st = Some tm → (0 < period tm)%Z →
  length (wire (advance transport t st)) =
  length (wire st) +
  (if (due tm <=? t)%Z then Z.to_nat ((t - due tm) / period tm + 1) else 0).
Proof.
  intros Htm Hp. unfold advance. rewrite Htm.
  apply (fireDue_count _ t st tm Htm Hp). reflexivity.
Qed.

End Interval.

Lemma frame_rearms_interval_witness :
  (due <$> intervalId (step alwaysReturns 16 (AnimationFrame padAtRest) streamingAt10Hz)) =
  Some 116%Z.
Proof.
  destruct (frame_rearms_interval alwaysReturns 16 padAtRest streamingAt10Hz)
    as (_ & _ & _ & Htm & _).
  - unfold sessionOpen. vm_compute. repeat split; eauto. discriminate.
  - vm_compute. reflexivity.
  - rewrite Htm. vm_compute. reflexivity.
Defined.

Lemma interval_starved_by_frames_witness :
  wire (run alwaysReturns (frames padAtRest 0 63) streamingAt10Hz) =
  wire streamingAt10Hz.
Proof.
  apply (interval_starved_by_frames alwaysReturns (frames padAtRest 0 63)
           streamingAt10Hz
           (mkTimer 100 100 padAtRest [mkFieldMapping axis 0 "turn"])).
  - unfold sessionOpen. vm_compute. repeat split; eauto. discriminate.
  - vm_compute. reflexivity.
  - vm_compute. reflexivity.
  - vm_compute. reflexivity.
  - vm_compute. repeat split; reflexivity.
Defined.

Lemma interval_rate_when_undisturbed_witness :
  length (wire (advance alwaysReturns 1000 streamingAt10Hz)) = 10.
Proof.
  rewrite (interval_rate_when_undisturbed alwaysReturns 1000 streamingAt10Hz
             (mkTimer 100 100 padAtRest [mkFieldMapping axis 0 "turn"])).
  - vm_compute. reflexivity.
  - vm_compute. reflexivity.
  - reflexivity.
Defined.

(** ** Invariants of a run *)

Section Invariants.

Variable transport : nat → PublishOutcome.

(** *** The live interval *)

Lemma timerConsistent_effect (now : Z) (st : Dashboard) :
  intervalId st = None → timerConsistent (streamingEffect transport now st).
Proof.
  intros Hnone. unfold streamingEffect.
  destruct (gamepadState st) as [gs |] eqn:Hgs;
    [|unfold timerConsistent; rewrite Hnone; exact I].
  destruct (effectGuard st) eqn:Hg;
    [|unfold timerConsistent; rewrite Hnone; exact I].
  destruct (sendByInterval st) eqn:Hi.
  - unfold effectGuard in Hg.
    apply andb_prop in Hg as [Hg Hm]. apply andb_prop in Hg as [Hg _].
    apply andb_prop in Hg as [Hs Hn]. apply bool_decide_eq_true in Hm.
    unfold timerConsistent. cbn. repeat split; assumption.
  - unfold timerConsistent.
    destruct (hasChange _); [unfold sendPayload; destruct (transport _)|];
      cbn; rewrite Hnone; exact I.
Qed.

Lemma timerConsistent_step (now : Z) (ev : Event) (st : Dashboard) :
  timerConsistent st → timerConsistent (step transport now ev st).
Proof.
  intros Hinv. rewrite step_unfold.
  destruct (available st ev); [|exact Hinv].
  destruct (handle ev st).2 eqn:Hch; [apply timerConsistent_effect; reflexivity|].
  unfold timerConsistent in *.
  destruct ev; cbn [handle fst snd] in *; try discriminate; try exact Hinv.
  - (* SetSendByInterval *)
    apply bool_decide_eq_false in Hch. apply dec_stable in Hch. subst checked.
    cbn. exact Hinv.
  - (* InputSendHz *)
    apply bool_decide_eq_false in Hch. apply dec_stable in Hch.
    cbn. rewrite Hch. exact Hinv.
  - (* Disconnect *)
    destruct (natsConnection st) eqn:Hn; [discriminate|].
    cbn [fst]. rewrite Hn. exact Hinv.
  - (* GamepadDisconnected *)
    apply bool_decide_eq_false in Hch. cbn.
    destruct (intervalId st) as [tm |]; [|exact I].
    destruct Hinv as (_ & _ & _ & Hgs & _). exfalso. apply Hch. eauto.
  - (* MappingInputBlur *)
    destruct (bool_decide (trim value ≠ "")); [discriminate|].
    destruct (bool_decide (is_Some (getMapping ty idx (mappings st))));
      [discriminate | exact Hinv].
Qed.

Lemma timerConsistent_fire (st : Dashboard) :
  timerConsistent st → timerConsistent (intervalFire transport st).
Proof.
  unfold timerConsistent, intervalFire.
  destruct (intervalId st) as [tm |] eqn:Htm; [|intros _; rewrite Htm; exact I].
  intros Hinv. unfold sendPayload. destruct (transport _); cbn; exact Hinv.
Qed.

Lemma timerConsistent_advance (t : Z) (st : Dashboard) :
  timerConsistent st → timerConsistent (advance transport t st).
Proof.
  unfold advance. destruct (intervalId st) as [tm |]; [|trivial].
  generalize (Z.to_nat ((t - due tm) / period tm + 1)). intros fuel. revert st.
  induction fuel as [| fuel IH]; intros st Hinv; cbn [fireDue]; [exact Hinv|].
  destruct (intervalId st) as [tm' |] eqn:Htm; [|exact Hinv].
  destruct (due tm' <=? t)%Z; [|exact Hinv].
  apply IH, timerConsistent_fire, Hinv.
Qed.

Lemma timerConsistent_run (evs : list (Z * Event)) (st : Dashboard) :
  timerConsistent st → timerConsistent (run transport evs st).
Proof.
  revert st. induction evs as [| [t ev] evs IH]; intros st Hinv; [exact Hinv|].
  cbn [run]. apply IH, timerConsistent_step, timerConsistent_advance, Hinv.
Qed.

Lemma mount_no_interval (urlConfig : option GamepadConfig) :
  intervalId (mount urlConfig) = None ∧ wire (mount urlConfig) = [] ∧
  lastMessage (mount urlConfig) = None.
Proof.
  unfold mount, loadUrlConfig. destruct urlConfig as [c |]; [|repeat split].
  destruct (cfg_sendHz c), (cfg_sendByInterval c); repeat split.
Qed.

Lemma reachable_timerConsistent (st : Dashboard) :
  reachable transport st → timerConsistent st.
Proof.
  intros (urlConfig & evs & ->). apply timerConsistent_run.
  unfold timerConsistent. rewrite (proj1 (mount_no_interval urlConfig)). exact I.
Qed.

(** Whenever an interval is live, the session streams in interval mode
    over a connection, and the interval's callback holds the current
    snapshot and the current, non-empty table: a timer fire always
    publishes the payload of the current state. *)
Theorem live_interval_is_current (st : Dashboard) :
  reachable transport st → timerConsistent st.
Proof. apply reachable_timerConsistent. Qed.

(** Once streaming is off no interval is left running: in every reachable
    state that does not stream, time can pass without a publish. *)
Theorem stopped_session_is_silent (t : Z) (st : Dashboard) :
  reachable transport st → isStreaming st = false →
  intervalId st = None ∧ advance transport t st = st.
Proof.
  intros Hr Hs. apply reachable_timerConsistent in Hr.
  unfold timerConsistent in Hr.
  assert (Hnone : intervalId st = None).
  { destruct (intervalId st) as [tm |]; [|reflexivity].
    destruct Hr as (Hs' & _). congruence. }
  split; [exact Hnone|]. unfold advance. rewrite Hnone. reflexivity.
Qed.

End Invariants.

Lemma live_interval_is_current_witness : timerConsistent streamingAt10Hz.
Proof.
  apply (live_interval_is_current alwaysReturns).
  exists None. eexists. reflexivity.
Defined.

Lemma stopped_session_is_silent_witness :
  advance alwaysReturns 5000
    (step alwaysReturns 50 ToggleStreaming streamingAt10Hz) =
  step alwaysReturns 50 ToggleStreaming streamingAt10Hz.
Proof.
  apply (stopped_session_is_silent alwaysReturns).
  - exists None.
    exists (setUp ++ [(0, SetSendByInterval true); (0, InputSendHz (JS.of_Z 10));
                      (0, ToggleStreaming); (50, ToggleStreaming)]%Z).
    vm_compute. reflexivity.
  - vm_compute. reflexivity.
Defined.

(** *** The wire and the last-message cell *)

Lemma lastReturnedFrom_snoc (transport : nat → PublishOutcome) (w : list Payload)
    (p : Payload) (n : nat) (acc : option Payload) :
  lastReturnedFrom transport n (w ++ [p]) acc =
  match transport (n + length w) with
  | Returned => Some p
  | Threw => lastReturnedFrom transport n w acc
  end.
Proof.
  revert n acc. induction w as [| q w IH]; intros n acc; cbn.
  - rewrite Nat.add_0_r. reflexivity.
  - rewrite IH. replace (S n + length w) with (n + S (length w)) by lia.
    reflexivity.
Qed.

Section WireInvariants.

Variable transport : nat → PublishOutcome.

Lemma carried_same (st0 st st' : Dashboard) :
  wire st' = wire st → lastMessage st' = lastMessage st →
  carried transport st0 st → carried transport st0 st'.
Proof. unfold carried. intros -> ->. trivial. Qed.

Lemma carried_sendPayload (st0 st : Dashboard) (p : Payload) :
  carried transport st0 st → carried transport st0 (sendPayload transport p st).
Proof.
  unfold carried. intros [Hpre Hlast].
  rewrite sendPayload_wire, sendPayload_lastMessage_eq, lastReturnedFrom_snoc.
  split; [apply prefix_app_r, Hpre|].
  cbn. destruct (transport _); [reflexivity | exact Hlast].
Qed.

Lemma carried_effect (st0 st : Dashboard) (now : Z) :
  carried transport st0 st → carried transport st0 (streamingEffect transport now st).
Proof.
  intros H. unfold streamingEffect.
  destruct (gamepadState st); [|exact H].
  destruct (effectGuard st); [|exact H].
  destruct (sendByInterval st); [exact H|].
  destruct (hasChange _); [apply carried_sendPayload|]; exact H.
Qed.

Lemma carried_step (st0 st : Dashboard) (now : Z) (ev : Event) :
  carried transport st0 st → carried transport st0 (step transport now ev st).
Proof.
  intros H. rewrite step_unfold.
  destruct (handle_keeps ev st) as (Hw & Hl & _).
  destruct (available st ev); [|exact H].
  destruct (handle ev st).2.
  - apply carried_effect. apply (carried_same st0 st); assumption.
  - apply (carried_same st0 st); assumption.
Qed.

Lemma carried_fire (st0 st : Dashboard) :
  carried transport st0 st → carried transport st0 (intervalFire transport st).
Proof.
  intros H. unfold intervalFire. destruct (intervalId st); [|exact H].
  apply carried_sendPayload. exact H.
Qed.

Lemma carried_advance (st0 st : Dashboard) (t : Z) :
  carried transport st0 st → carried transport st0 (advance transport t st).
Proof.
  unfold advance. destruct (intervalId st) as [tm |]; [|trivial].
  generalize (Z.to_nat ((t - due tm) / period tm + 1)). intros fuel. revert st.
  induction fuel as [| fuel IH]; intros st H; cbn [fireDue]; [exact H|].
  destruct (intervalId st) as [tm' |]; [|exact H].
  destruct (due tm' <=? t)%Z; [|exact H].
  apply IH, carried_fire, H.
Qed.

Lemma carried_run (st0 st : Dashboard) (evs : list (Z * Event)) :
  carried transport st0 st → carried transport st0 (run transport evs st).
Proof.
  revert st. induction evs as [| [t ev] evs IH]; intros st H; [exact H|].
  cbn [run]. apply IH, carried_step, carried_advance, H.
Qed.

(** In every reachable state the last-message cell shows the payload of
    the latest publish call that returned without throwing, and nothing
    if no call has returned yet. *)
Theorem lastMessage_is_latest_returned (st : Dashboard) :
  reachable transport st →
  lastMessage st = lastReturnedFrom transport 0 (wire st) None.
Proof.
  intros (urlConfig & evs & ->).
  apply (carried_run (mount urlConfig)).
  destruct (mount_no_interval urlConfig) as (_ & Hw & Hl).
  split; [reflexivity|]. rewrite Hw, Hl. reflexivity.
Qed.

End WireInvariants.

Lemma lastMessage_is_latest_returned_witness :
  lastMessage streamingOnChange =
  lastReturnedFrom alwaysReturns 0 (wire streamingOnChange) None.
Proof.
  apply (lastMessage_is_latest_returned alwaysReturns).
  exists None. eexists. reflexivity.
Defined.

(** ** Finding the first match *)

Section FindFirst.

Context {A : Type} (P : A → Prop) `{!∀ x, Decision (P x)}.

Lemma find_first_cons (x : A) (l : list A) :
  snd <$> list_find P (x :: l) =
  if decide (P x) then Some x else snd <$> list_find P l.
Proof.
  cbn. destruct (decide (P x)); [reflexivity|].
  destruct (list_find P l) as [[i y] |]; reflexivity.
Qed.

Lemma find_first_none (l : list A) :
  Forall (λ x, ¬ P x) l → snd <$> list_find P l = None.
Proof. intros Hall. rewrite (proj2 (list_find_None P l) Hall). reflexivity. Qed.

Lemma find_first_app (l1 l2 : list A) :
  snd <$> list_find P (l1 ++ l2) =
  match snd <$> list_find P l1 with
  | Some x => Some x
  | None => snd <$> list_find P l2
  end.
Proof.
  induction l1 as [| x l1 IH]; [reflexivity|].
  rewrite <- app_comm_cons, !find_first_cons.
  destruct (decide (P x)); [reflexivity | exact IH].
Qed.

(** Filtering by a condition every match satisfies does not change the
    first match. *)
Lemma find_first_filter (Q : A → Prop) `{!∀ x, Decision (Q x)} (l : list A) :
  (∀ x, P x → Q x) →
  snd <$> list_find P (filter Q l) = snd <$> list_find P l.
Proof.
  intros HPQ. induction l as [| x l IH]; [reflexivity|].
  rewrite filter_cons, find_first_cons.
  destruct (decide (Q x)) as [HQ | HnQ].
  - rewrite find_first_cons. destruct (decide (P x)); [reflexivity | exact IH].
  - rewrite decide_False by (intros HP; apply HnQ, HPQ, HP). exact IH.
Qed.

(** Filtering out every match leaves nothing to find. *)
Lemma find_first_filter_out (l : list A) :
  snd <$> list_find P (filter (λ x, ¬ P x) l) = None.
Proof.
  apply find_first_none, Forall_forall.
  intros x Hx%list_elem_of_filter. tauto.
Qed.

End FindFirst.

(** ** Looking mappings up *)

Lemma getMapping_find (ty : ChannelType) (idx : nat) (l : list FieldMapping) :
  getMapping ty idx l = snd <$> list_find (sameChannel ty idx) l.
Proof.
  unfold getMapping. destruct (list_find _ l) as [[i m] |]; reflexivity.
Qed.

(** [getMapping] after the table operations: an added mapping is found
    under its channel, a removed channel is not found any more, and the
    mappings of every other channel are found as before. *)
Theorem getMapping_after_edit
    (ty ty' : ChannelType) (idx idx' : nat) (name : string) (l : list FieldMapping) :
  (trim name ≠ "" →
   getMapping ty idx (addMapping ty idx name l) =
   Some (mkFieldMapping ty idx (trim name))) ∧
  getMapping ty idx (removeMapping ty idx l) = None ∧
  ((ty', idx') ≠ (ty, idx) →
   getMapping ty' idx' (addMapping ty idx name l) = getMapping ty' idx' l ∧
   getMapping ty' idx' (removeMapping ty idx l) = getMapping ty' idx' l).
Proof.
  assert (Hout : ∀ k, getMapping ty idx (withoutChannel ty idx k) = None).
  { intros k. rewrite getMapping_find. apply find_first_filter_out. }
  assert (Hother : (ty', idx') ≠ (ty, idx) → ∀ k,
            getMapping ty' idx' (withoutChannel ty idx k) = getMapping ty' idx' k).
  { intros Hne k. rewrite !getMapping_find. apply find_first_filter.
    intros m [Hty Hidx] [Hty' Hidx']. apply Hne. congruence. }
  split; [|split].
  - intros Hname. rewrite addMapping_nonempty by exact Hname.
    rewrite getMapping_find, find_first_app, <- getMapping_find, Hout.
    rewrite find_first_cons, decide_True by (split; reflexivity). reflexivity.
  - apply Hout.
  - intros Hne. split; [|apply Hother, Hne].
    destruct (decide (trim name = "")) as [He | Hname].
    + rewrite addMapping_empty by exact He. reflexivity.
    + rewrite addMapping_nonempty by exact Hname.
      rewrite getMapping_find, find_first_app, <- getMapping_find.
      rewrite (Hother Hne). destruct (getMapping ty' idx' l); [reflexivity|].
      rewrite find_first_cons, decide_False; [reflexivity|].
      intros [Hty Hidx]. cbn in *. apply Hne. congruence.
Qed.

Lemma getMapping_after_edit_witness :
  getMapping axis 0
    (addMapping axis 0 "turn" [mkFieldMapping axis 0 "old"; mkFieldMapping button 0 "fire"]) =
    Some (mkFieldMapping axis 0 "turn") ∧
  getMapping button 0
    (addMapping axis 0 "turn" [mkFieldMapping axis 0 "old"; mkFieldMapping button 0 "fire"]) =
    Some (mkFieldMapping button 0 "fire").
Proof.
  destruct (getMapping_after_edit axis button 0 0 "turn"
              [mkFieldMapping axis 0 "old"; mkFieldMapping button 0 "fire"])
    as (Hadd & _ & Hother).
  split.
  - apply Hadd. vm_compute. discriminate.
  - destruct Hother as [H _]; [discriminate|]. rewrite H. reflexivity.
Defined.

(** ** Configuration store *)

Lemma getAllConfigs_saveConfig (c : GamepadConfig) (now : JS.number) (stored : Storage) :
  getAllConfigs (saveConfig c now stored) =
  match list_find (hasName (cfg_name c)) (getAllConfigs stored) with
  | Some (i, _) => <[i := stamped c now]> (getAllConfigs stored)
  | None => getAllConfigs stored ++ [stamped c now]
  end.
Proof.
  unfold saveConfig. destruct (list_find _ _) as [[i x] |]; reflexivity.
Qed.

(** Replacing an element that does not match by another that does not
    match changes no search. *)
Lemma find_first_insert_other {A : Type} (P : A → Prop) `{!∀ x, Decision (P x)}
    (l : list A) (i : nat) (x y : A) :
  l !! i = Some x → ¬ P x → ¬ P y →
  snd <$> list_find P (<[i := y]> l) = snd <$> list_find P l.
Proof.
  revert i. induction l as [| z l IH]; intros i Hi Hx Hy; [reflexivity|].
  destruct i as [| i]; cbn [insert list_insert].
  - injection Hi as ->. rewrite !find_first_cons, !decide_False by assumption.
    reflexivity.
  - rewrite !find_first_cons. destruct (decide (P z)); [reflexivity|].
    apply (IH i Hi Hx Hy).
Qed.

Lemma saveConfig_lookup
    (c : GamepadConfig) (now : JS.number) (stored : Storage) (name : string) :
  getConfig (cfg_name c) (saveConfig c now stored) = Some (stamped c now) ∧
  (name ≠ cfg_name c →
   getConfig name (saveConfig c now stored) = getConfig name stored).
Proof.
  unfold getConfig. rewrite getAllConfigs_saveConfig.
  destruct (list_find (hasName (cfg_name c)) (getAllConfigs stored))
    as [[i x] |] eqn:Hfind.
  - apply list_find_Some in Hfind as (Hi & Hx & Hleast). split.
    + rewrite (proj2 (list_find_Some (hasName (cfg_name c)) _ i (stamped c now)));
        [reflexivity|].
      split; [|split].
      * apply list_lookup_insert_eq. apply lookup_lt_Some in Hi. exact Hi.
      * reflexivity.
      * intros j y Hj Hlt. rewrite list_lookup_insert_ne in Hj by lia.
        apply (Hleast j y Hj Hlt).
    + intros Hne. apply (find_first_insert_other _ _ i x); [exact Hi | |].
      * unfold hasName in *. congruence.
      * unfold hasName. cbn. congruence.
  - apply list_find_None in Hfind. split.
    + rewrite find_first_app, (find_first_none _ _ Hfind), find_first_cons.
      rewrite decide_True by reflexivity. reflexivity.
    + intros Hne. rewrite find_first_app.
      destruct (snd <$> list_find (hasName name) (getAllConfigs stored));
        [reflexivity|].
      rewrite find_first_cons, decide_False; [reflexivity|].
      unfold hasName. cbn. congruence.
Qed.

Lemma jsonExact_saveConfig
    (c : GamepadConfig) (now : JS.number) (stored : Storage) :
  jsonExact (stamped c now) →
  Forall jsonExact (getAllConfigs stored) →
  Forall jsonExact (getAllConfigs (saveConfig c now stored)).
Proof.
  intros Hc Hs. rewrite getAllConfigs_saveConfig.
  destruct (list_find _ _) as [[i x] |].
  - apply Forall_insert; assumption.
  - apply Forall_app. split; [exact Hs|]. apply Forall_singleton. exact Hc.
Qed.

(** Saving and looking up, for configurations whose numbers survive the
    JSON text of the store (finite, and not the negative zero): the saved
    configuration, stamped with the time of saving, is what [getConfig]
    returns under its name, whether the name was new or taken; every other
    name gives what it gave before; and the store still holds only
    configurations that survive JSON. *)
Theorem saveConfig_then_getConfig
    (c : GamepadConfig) (now : JS.number) (stored : Storage) (name : string) :
  jsonExact (stamped c now) →
  Forall jsonExact (getAllConfigs stored) →
  getConfig (cfg_name c) (saveConfig c now stored) = Some (stamped c now) ∧
  (name ≠ cfg_name c →
   getConfig name (saveConfig c now stored) = getConfig name stored) ∧
  Forall jsonExact (getAllConfigs (saveConfig c now stored)).
Proof.
  intros Hc Hs. destruct (saveConfig_lookup c now stored name) as [Hget Hother].
  split; [exact Hget|]. split; [exact Hother|].
  apply jsonExact_saveConfig; assumption.
Qed.

Lemma saveConfig_then_getConfig_witness :
  getConfig "fast" (saveConfig configFast JS.one (Some [configButton5])) =
  Some (stamped configFast JS.one).
Proof.
  apply (saveConfig_then_getConfig configFast JS.one (Some [configButton5]) "wide pad").
  - split; reflexivity.
  - repeat constructor.
Defined.

(** Deleting: no configuration of the deleted name is left, and every
    other name gives what it gave before. *)
Theorem deleteConfig_then_getConfig (name name' : string) (stored : Storage) :
  getConfig name (deleteConfig name stored) = None ∧
  Forall (λ c, cfg_name c ≠ name) (getAllConfigs (deleteConfig name stored)) ∧
  (name' ≠ name →
   getConfig name' (deleteConfig name stored) = getConfig name' stored).
Proof.
  unfold getConfig, deleteConfig. cbn [getAllConfigs default]. split; [|split].
  - apply find_first_filter_out.
  - apply Forall_forall. intros c Hc%list_elem_of_filter. exact (proj1 Hc).
  - intros Hne. apply find_first_filter.
    intros c Hc Hc'. unfold hasName in *. congruence.
Qed.

Lemma deleteConfig_then_getConfig_witness :
  getConfig "fast" (deleteConfig "wide pad" (Some [configButton5; configFast])) =
  getConfig "fast" (Some [configButton5; configFast]).
Proof.
  apply (deleteConfig_then_getConfig "wide pad" "fast"). discriminate.
Defined.

(** Saving keeps names unique, and saving under a taken name keeps the
    number of stored configurations; saving under a new name adds one. *)
Theorem saveConfig_names_unique
    (c : GamepadConfig) (now : JS.number) (stored : Storage) :
  (NoDup (cfg_name <$> getAllConfigs stored) →
   NoDup (cfg_name <$> getAllConfigs (saveConfig c now stored))) ∧
  length (getAllConfigs (saveConfig c now stored)) =
  if decide (cfg_name c ∈ cfg_name <$> getAllConfigs stored)
  then length (getAllConfigs stored)
  else S (length (getAllConfigs stored)).
Proof.
  rewrite getAllConfigs_saveConfig.
  destruct (list_find (hasName (cfg_name c)) (getAllConfigs stored))
    as [[i x] |] eqn:Hfind.
  - apply list_find_Some in Hfind as (Hi & Hx & _). split.
    + intros Hnd. rewrite list_fmap_insert. cbn [stamped cfg_name].
      rewrite list_insert_id; [exact Hnd|].
      rewrite list_lookup_fmap, Hi. cbn. f_equal. exact Hx.
    + rewrite length_insert, decide_True; [reflexivity|].
      apply list_elem_of_fmap. exists x. split; [symmetry; exact Hx|].
      apply list_elem_of_lookup. eauto.
  - apply list_find_None in Hfind.
    assert (Hfresh : cfg_name c ∉ cfg_name <$> getAllConfigs stored).
    { intros (y & Hy & Hin)%list_elem_of_fmap.
      rewrite Forall_forall in Hfind. apply (Hfind y Hin). symmetry. exact Hy. }
    split.
    + intros Hnd. rewrite fmap_app. apply NoDup_app. split; [exact Hnd|]. split.
      * intros n Hn Hn'. cbn in Hn'. apply list_elem_of_singleton in Hn'.
        subst n. exact (Hfresh Hn).
      * cbn. apply NoDup_singleton.
    + rewrite length_app, decide_False by exact Hfresh. cbn. lia.
Qed.

Lemma saveConfig_names_unique_witness :
  NoDup (cfg_name <$> getAllConfigs
           (saveConfig configFast JS.one (Some [configButton5; configFast]))).
Proof.
  apply (saveConfig_names_unique configFast JS.one (Some [configButton5; configFast])).
  compute_done.
Defined.

(** Save, then load.  A configuration saved from the panel under a name
    that is not blank, at a time and with a rate that survive the JSON text
    of the store (finite, and not the negative zero), can be fetched under
    the trimmed name; loaded back into any later state it restores the URL,
    the subject, the table, the rate and the mode that were current when it
    was saved. *)
Theorem save_then_load_restores
    (configName : string) (now : JS.number) (st st' : Dashboard) (stored : Storage) :
  trim configName ≠ "" →
  jsonNumber now = Some now →
  jsonNumber (sendHz st) = Some (sendHz st) →
  Forall jsonExact (getAllConfigs stored) →
  ∃ c, getConfig (trim configName) (handleSaveConfig configName now st stored) = Some c ∧
       jsonExact c ∧
       Forall jsonExact (getAllConfigs (handleSaveConfig configName now st stored)) ∧
       natsUrl (handleLoadConfig c st') = natsUrl st ∧
       subject (handleLoadConfig c st') = subject st ∧
       mappings (handleLoadConfig c st') = mappings st ∧
       sendHz (handleLoadConfig c st') = sendHz st ∧
       sendByInterval (handleLoadConfig c st') = sendByInterval st.
Proof.
  intros Hname Hnow Hhz Hs. unfold handleSaveConfig.
  rewrite bool_decide_eq_false_2 by exact Hname.
  eexists. split; [exact (proj1 (saveConfig_lookup _ now stored ""))|].
  assert (Hc : jsonExact
                 (stamped
                    {| cfg_name := trim configName; cfg_natsUrl := natsUrl st;
                       cfg_subject := subject st; cfg_mappings := mappings st;
                       cfg_sendHz := Some (sendHz st);
                       cfg_sendByInterval := Some (sendByInterval st);
                       cfg_createdAt := now |} now))
    by (split; assumption).
  split; [exact Hc|]. split; [apply jsonExact_saveConfig; assumption|].
  repeat split.
Qed.

Lemma save_then_load_restores_witness :
  ∃ c, getConfig "race" (handleSaveConfig " race " JS.one streamingAt10Hz None) = Some c ∧
       sendHz (handleLoadConfig c initial) = JS.of_Z 10.
Proof.
  destruct (save_then_load_restores " race " JS.one streamingAt10Hz initial None)
    as (c & Hc & _ & _ & _ & _ & _ & Hhz & _).
  - vm_compute. discriminate.
  - reflexivity.
  - vm_compute. reflexivity.
  - constructor.
  - exists c. split; [exact Hc|]. rewrite Hhz. vm_compute. reflexivity.
Defined.

(** A blank name saves nothing. *)
Theorem blank_name_saves_nothing
    (configName : string) (now : JS.number) (st : Dashboard) (stored : Storage) :
  trim configName = "" → handleSaveConfig configName now st stored = stored.
Proof.
  intros Hname. unfold handleSaveConfig.
  rewrite bool_decide_eq_true_2 by exact Hname. reflexivity.
Qed.

Lemma blank_name_saves_nothing_witness :
  handleSaveConfig "   " JS.one initial None = None.
Proof. apply blank_name_saves_nothing. reflexivity. Defined.

(** ** The rate input *)

Lemma SFcompare_swap (x y : JS.number) :
  SFcompare y x = CompOpp <$> SFcompare x y.
Proof.
  destruct x as [sx | sx | | sx mx ex], y as [sy | sy | | sy my ey];
    try reflexivity; try (destruct sx; reflexivity);
    try (destruct sy; reflexivity); try (destruct sx, sy; reflexivity).
  cbn [SFcompare].
  destruct sx, sy; try reflexivity; cbn [fmap option_fmap option_map];
    rewrite (Z.compare_antisym ex ey);
    destruct (ex ?= ey)%Z; cbn [CompOpp]; try reflexivity;
    rewrite (Pos.compare_cont_antisym mx my Eq); cbn [CompOpp];
    try rewrite CompOpp_involutive; reflexivity.
Qed.

Lemma SFcompare_one_eq (v : JS.number) :
  SFcompare (JS.of_Z 1) v = Some Eq → v = JS.of_Z 1.
Proof.
  change (JS.of_Z 1) with (S754_finite false 4503599627370496 (-52)).
  destruct v as [s | s | | s m e]; cbn [SFcompare];
    try (destruct s; discriminate); try discriminate.
  destruct s; [discriminate|].
  destruct (-52 ?= e)%Z eqn:He; try discriminate.
  apply Z.compare_eq in He. subst e.
  intros [= Hm]. change (Pos.compare_cont Eq 4503599627370496 m)
    with (4503599627370496 ?= m)%positive in Hm.
  apply Pos.compare_eq in Hm. subst m. reflexivity.
Qed.

(** The handler of the rate input: whatever number the input holds, the
    stored rate lies between 1 and 100; a rate already in that range is
    stored as typed; only NaN, which a number input never yields, would
    pass through as NaN. *)
Theorem clampSendHz_range (value : JS.number) :
  (value ≠ S754_nan → sendHzInRange (clampSendHz value) = true) ∧
  (sendHzInRange value = true → clampSendHz value = value) ∧
  clampSendHz S754_nan = S754_nan.
Proof.
  assert (Hone : sendHzInRange (JS.of_Z 1) = true) by (vm_compute; reflexivity).
  assert (Hhundred : JS.max (JS.of_Z 1) (JS.of_Z 100) = JS.of_Z 100)
    by (vm_compute; reflexivity).
  assert (Hhr : sendHzInRange (JS.of_Z 100) = true) by (vm_compute; reflexivity).
  assert (Hmax : ∀ v, SFleb v (JS.of_Z 100) = true →
            sendHzInRange (JS.max (JS.of_Z 1) v) = true).
  { intros v Hv. unfold JS.max.
    destruct (SFcompare (JS.of_Z 1) v) as [[] |] eqn:Hc.
    - exact Hone.
    - unfold sendHzInRange, SFleb. rewrite Hc. exact Hv.
    - exact Hone.
    - unfold SFleb in Hv. rewrite SFcompare_swap in Hv.
      unfold SFcompare in Hc. destruct v; discriminate. }
  pose proof (SFcompare_swap (JS.of_Z 100) value) as Hswap.
  split; [|split].
  - intros Hnan. unfold clampSendHz, JS.min.
    destruct (SFcompare (JS.of_Z 100) value) as [[] |] eqn:Hc.
    + change (JS.is_neg_zero (JS.of_Z 100)) with false. cbn iota.
      apply Hmax. unfold SFleb. rewrite Hswap. reflexivity.
    + rewrite Hhundred. exact Hhr.
    + apply Hmax. unfold SFleb. rewrite Hswap. reflexivity.
    + exfalso. destruct value; try discriminate. apply Hnan. reflexivity.
  - unfold sendHzInRange, SFleb. intros [Hlo Hhi]%andb_prop.
    rewrite Hswap in Hhi. unfold clampSendHz, JS.min, JS.max.
    destruct (SFcompare (JS.of_Z 100) value) as [[] |] eqn:Hc;
      cbn in Hhi; try discriminate; cbn [JS.is_neg_zero];
      change (JS.is_neg_zero (JS.of_Z 100)) with false; cbn iota.
    + destruct (SFcompare (JS.of_Z 1) value) as [[] |] eqn:Hc1;
        try discriminate; [|reflexivity].
      change (JS.is_neg_zero (JS.of_Z 1)) with false. cbn iota.
      symmetry. apply SFcompare_one_eq, Hc1.
    + destruct (SFcompare (JS.of_Z 1) value) as [[] |] eqn:Hc1;
        try discriminate; [|reflexivity].
      change (JS.is_neg_zero (JS.of_Z 1)) with false. cbn iota.
      symmetry. apply SFcompare_one_eq, Hc1.
  - reflexivity.
Qed.

Lemma clampSendHz_range_witness :
  sendHzInRange (clampSendHz (JS.of_Z 0)) = true ∧
  clampSendHz (JS.decimal 25 1) = JS.decimal 25 1.
Proof.
  split.
  - apply (clampSendHz_range (JS.of_Z 0)). discriminate.
  - apply (clampSendHz_range (JS.decimal 25 1)). vm_compute. reflexivity.
Defined.

(** ** Disconnecting *)

(** [handleDisconnect] on a connected session: the connection is dropped,
    streaming is switched off and the live interval, if any, is cleared in
    the same step; nothing is published, the table and the rate settings
    stay, and the streaming button is disabled until a new connection is
    made. *)
Theorem disconnect_stops_streaming
    (transport : nat → PublishOutcome) (now : Z) (st : Dashboard) :
  isConnected st = true → natsConnection st = true →
  let st' := step transport now Disconnect st in
  natsConnection st' = false ∧ isConnected st' = false ∧
  isStreaming st' = false ∧ intervalId st' = None ∧
  wire st' = wire st ∧
  mappings st' = mappings st ∧ sendHz st' = sendHz st ∧
  sendByInterval st' = sendByInterval st ∧
  lastSentState st' = lastSentState st ∧ lastAxisValues st' = lastAxisValues st ∧
  available st' ToggleStreaming = false.
Proof.
  intros Hc Hn. cbn zeta. rewrite step_unfold. cbn [available handle].
  rewrite Hc, Hn. cbn [fst snd].
  rewrite streamingEffect_guarded by reflexivity.
  cbn. rewrite andb_false_r. repeat split.
Qed.

Lemma disconnect_stops_streaming_witness :
  intervalId (step alwaysReturns 40 Disconnect streamingAt10Hz) = None ∧
  isStreaming (step alwaysReturns 40 Disconnect streamingAt10Hz) = false.
Proof.
  destruct (disconnect_stops_streaming alwaysReturns 40 streamingAt10Hz)
    as (_ & _ & Hs & Hi & _); try (vm_compute; reflexivity).
  split; assumption.
Defined.

(** ** The table along a run *)

Lemma streamingEffect_mappings (transport : nat → PublishOutcome) (now : Z)
    (st : Dashboard) :
  mappings (streamingEffect transport now st) = mappings st.
Proof.
  unfold streamingEffect.
  destruct (gamepadState st); [|reflexivity].
  destruct (effectGuard st); [|reflexivity].
  destruct (sendByInterval st); [reflexivity|].
  destruct (hasChange _); [unfold sendPayload; destruct (transport _)|];
    reflexivity.
Qed.

Lemma advance_mappings (transport : nat → PublishOutcome) (t : Z) (st : Dashboard) :
  mappings (advance transport t st) = mappings st.
Proof.
  unfold advance. destruct (intervalId st) as [tm |]; [|reflexivity].
  generalize (Z.to_nat ((t - due tm) / period tm + 1)). intros fuel. revert st.
  induction fuel as [| fuel IH]; intros st; cbn [fireDue]; [reflexivity|].
  destruct (intervalId st) as [tm' |] eqn:Htm; [|reflexivity].
  destruct (due tm' <=? t)%Z; [|reflexivity].
  rewrite IH. unfold intervalFire, sendPayload. rewrite Htm.
  destruct (transport _); reflexivity.
Qed.

(** Editing through the mapping panel never puts two mappings on one
    channel: along any run without a configuration load, a table with at
    most one mapping per (type, index) pair stays that way. *)
Theorem panel_edits_keep_channels_unique
    (transport : nat → PublishOutcome) (evs : list (Z * Event)) (st : Dashboard) :
  Forall (λ tev, ¬ isLoadConfig tev.2) evs →
  uniqueChannels (mappings st) →
  uniqueChannels (mappings (run transport evs st)).
Proof.
  intros Hevs. revert st.
  induction Hevs as [| [t ev] evs Hev _ IH]; intros st Hu; [exact Hu|].
  cbn [run]. apply IH. rewrite step_unfold.
  rewrite <- (advance_mappings transport t st) in Hu.
  set (s := advance transport t st) in *.
  destruct (available s ev); [|exact Hu].
  assert (Hh : uniqueChannels (mappings (handle ev s).1)).
  { destruct ev; cbn [handle fst]; try exact Hu.
    - destruct (natsConnection s); exact Hu.
    - destruct (bool_decide (trim value ≠ ""));
        [apply addMapping_unique, Hu|].
      destruct (bool_decide _); [apply withoutChannel_unique, Hu | exact Hu].
    - apply withoutChannel_unique, Hu.
    - exfalso. apply Hev. exact I. }
  destruct (handle ev s).2; [|exact Hh].
  rewrite streamingEffect_mappings. exact Hh.
Qed.

Lemma panel_edits_keep_channels_unique_witness :
  uniqueChannels (mappings streamingTwoChannels).
Proof.
  apply (panel_edits_keep_channels_unique alwaysReturns).
  - vm_compute. repeat (constructor; [intros [] |]). constructor.
  - unfold uniqueChannels. apply NoDup_nil_2.
Defined.

(** ** The payload *)

(** The keys of the payload are exactly the field names of the table,
    [__proto__] excepted: assigning to that name creates no entry. *)
Theorem buildPayload_keys (gs : GamepadState) (l : list FieldMapping) (k : string) :
  is_Some (buildPayload gs l !! k) ↔ k ∈ fieldName <$> l ∧ k ≠ "__proto__".
Proof.
  split.
  - intros Hk. split.
    + destruct (decide (k ∈ fieldName <$> l)) as [Hin | Hnot]; [exact Hin|].
      exfalso. unfold buildPayload in Hk.
      rewrite buildFields_other, lookup_empty in Hk.
      * destruct Hk as [x Hx]. discriminate.
      * apply Forall_forall. intros m Hm Hname. apply Hnot.
        apply list_elem_of_fmap. exists m. split; [symmetry; exact Hname | exact Hm].
    + intros ->. rewrite buildPayload_proto in Hk. destruct Hk as [x Hx]. discriminate.
  - intros Hk. apply buildFields_mapped. right. exact Hk.
Qed.

Lemma one_not_zero : JS.one ≠ JS.zero.
Proof. vm_compute. discriminate. Qed.

(** What the payload holds for a button: under the field name of a button
    mapping (not [__proto__], and not reused by a later mapping) the
    builder puts [1] when the snapshot has the button and it is pressed,
    and [0] in every other case, a button the snapshot lacks included. *)
Theorem button_field_is_0_or_1
    (gs : GamepadState) (l1 l2 : list FieldMapping) (m : FieldMapping) :
  type m = button →
  fieldName m ≠ "__proto__" →
  Forall (λ m', fieldName m' ≠ fieldName m) l2 →
  buildPayload gs (l1 ++ m :: l2) !! fieldName m =
    Some (if bool_decide (buttons gs !! index m = Some true)
          then JS.one else JS.zero) ∧
  JS.one ≠ JS.zero.
Proof.
  intros Hty Hname Hlast. split; [|apply one_not_zero].
  rewrite buildPayload_last_writer by assumption.
  unfold fieldValue. rewrite Hty.
  destruct (buttons gs !! index m) as [[] |]; reflexivity.
Qed.

Lemma button_field_is_0_or_1_witness :
  buildPayload (mkGamepadState [false; true] [] JS.zero)
    [mkFieldMapping button 1 "jump"; mkFieldMapping button 0 "fire"] !! "jump" =
  Some JS.one.
Proof.
  apply (button_field_is_0_or_1 (mkGamepadState [false; true] [] JS.zero)
           [] [mkFieldMapping button 0 "fire"] (mkFieldMapping button 1 "jump")).
  - reflexivity.
  - cbn. discriminate.
  - repeat constructor. cbn. discriminate.
Defined.

(** The deadzone filter is idempotent, and so is the pair of filter and
    [|| 0] an axis reading goes through. *)
Theorem deadzone_idempotent (x : JS.number) (v : option JS.number) :
  deadzone (deadzone x) = deadzone x ∧
  JS.or_zero (Some (deadzone (JS.or_zero v))) = deadzone (JS.or_zero v).
Proof.
  assert (Hd : ∀ y, deadzone (deadzone y) = deadzone y).
  { intros y. unfold deadzone at 2 3.
    destruct (JS.lt (JS.abs y) deadZone) eqn:Hlt; [apply deadzone_zero|].
    unfold deadzone. rewrite Hlt. reflexivity. }
  split; [apply Hd|].
  cbn [JS.or_zero].
  destruct (deadzone (JS.or_zero v)) as [s | s | | s m e] eqn:Hz; cbn [JS.truthy].
  - (* a zero result is the positive zero *)
    unfold deadzone in Hz.
    destruct (JS.lt (JS.abs (JS.or_zero v)) deadZone).
    + rewrite <- Hz. reflexivity.
    + destruct v as [[[] | | |] |]; cbn in Hz; try discriminate;
        rewrite <- Hz; reflexivity.
  - reflexivity.
  - exfalso. apply (deadzone_not_nan (JS.or_zero v)); [apply or_zero_not_nan | exact Hz].
  - reflexivity.
Qed.

(** ** Removing a mapping and adding it again *)

Section ReAdd.

Variable transport : nat → PublishOutcome.

(** The effect leaves the settings and the snapshot as they are. *)
Lemma streamingEffect_keeps (now : Z) (st : Dashboard) :
  let st' := streamingEffect transport now st in
  isStreaming st' = isStreaming st ∧ natsConnection st' = natsConnection st ∧
  sendByInterval st' = sendByInterval st ∧ mappings st' = mappings st ∧
  selectedGamepadIndex st' = selectedGamepadIndex st ∧
  gamepadState st' = gamepadState st.
Proof.
  cbn zeta. unfold streamingEffect.
  destruct (gamepadState st) eqn:Hgs; [|rewrite Hgs; repeat split].
  destruct (effectGuard st); [|rewrite Hgs; repeat split].
  destruct (sendByInterval st) eqn:Hi; [cbn; rewrite Hgs, Hi; repeat split|].
  destruct (hasChange _); [unfold sendPayload; destruct (transport _)|];
    cbn; rewrite Hgs, Hi; repeat split.
Qed.

(** On a table without the channel, the effect leaves the channel's latch
    entry as it is. *)
Lemma streamingEffect_orphan (now : Z) (st : Dashboard) (ty : ChannelType) (idx : nat) :
  Forall (λ m, ¬ sameChannel ty idx m) (mappings st) →
  latchEntry ty idx (streamingEffect transport now st) = latchEntry ty idx st.
Proof.
  intros Habs. unfold streamingEffect.
  destruct (gamepadState st) as [gs |]; [|reflexivity].
  destruct (effectGuard st); [|reflexivity].
  destruct (sendByInterval st); [destruct ty; reflexivity|].
  pose proof (scanMappings_untouched gs (mappings st) (lastSentState st)
                (lastAxisValues st) ty idx Habs) as Hkept.
  assert (Hsend : ∀ p s, latchEntry ty idx (sendPayload transport p s) = latchEntry ty idx s).
  { intros p s. unfold sendPayload. destruct (transport _); destruct ty; reflexivity. }
  destruct (hasChange _); [rewrite Hsend|];
    destruct ty; cbn; rewrite Hkept; reflexivity.
Qed.

Lemma advance_keeps (t : Z) (st : Dashboard) :
  let st' := advance transport t st in
  isStreaming st' = isStreaming st ∧ natsConnection st' = natsConnection st ∧
  sendByInterval st' = sendByInterval st ∧ mappings st' = mappings st ∧
  selectedGamepadIndex st' = selectedGamepadIndex st ∧
  gamepadState st' = gamepadState st ∧
  lastSentState st' = lastSentState st ∧ lastAxisValues st' = lastAxisValues st.
Proof.
  cbn zeta. unfold advance. destruct (intervalId st) as [tm |]; [|repeat split].
  generalize (Z.to_nat ((t - due tm) / period tm + 1)). intros fuel. revert st.
  induction fuel as [| fuel IH]; intros st; cbn [fireDue]; [repeat split|].
  destruct (intervalId st) as [tm' |] eqn:Htm; [|repeat split].
  destruct (due tm' <=? t)%Z; [|repeat split].
  destruct (IH (intervalFire transport st)) as (H1 & H2 & H3 & H4 & H5 & H6 & H7 & H8).
  rewrite H1, H2, H3, H4, H5, H6, H7, H8.
  unfold intervalFire, sendPayload. rewrite Htm.
  destruct (transport _); repeat split.
Qed.

(** While animation frames come in, the settings stay, and so does the
    latch entry of a channel the table does not map. *)
Lemma frames_keep (evs : list (Z * Event)) (st : Dashboard) (ty : ChannelType) (idx : nat) :
  Forall (λ tev, isAnimationFrame tev.2) evs →
  Forall (λ m, ¬ sameChannel ty idx m) (mappings st) →
  let st' := run transport evs st in
  isStreaming st' = isStreaming st ∧ natsConnection st' = natsConnection st ∧
  sendByInterval st' = sendByInterval st ∧ mappings st' = mappings st ∧
  selectedGamepadIndex st' = selectedGamepadIndex st ∧
  latchEntry ty idx st' = latchEntry ty idx st.
Proof.
  intros Hevs. revert st.
  induction Hevs as [| [t ev] evs Hev _ IH]; intros st Habs; [repeat split|].
  cbn zeta. cbn [run].
  destruct ev; cbn in Hev; try contradiction.
  destruct (advance_keeps t st) as (A1 & A2 & A3 & A4 & A5 & _ & A7 & A8).
  set (s := advance transport t st) in *.
  assert (Hstep :
    let s' := step transport t (AnimationFrame gs) s in
    isStreaming s' = isStreaming s ∧ natsConnection s' = natsConnection s ∧
    sendByInterval s' = sendByInterval s ∧ mappings s' = mappings s ∧
    selectedGamepadIndex s' = selectedGamepadIndex s ∧
    latchEntry ty idx s' = latchEntry ty idx s).
  { cbn zeta. rewrite step_unfold. cbn [available handle fst snd].
    destruct (bool_decide _); [|repeat split].
    destruct (streamingEffect_keeps t (effectCleanup (set_gamepadState (Some gs) s)))
      as (E1 & E2 & E3 & E4 & E5 & _).
    rewrite E1, E2, E3, E4, E5.
    rewrite streamingEffect_orphan by (cbn; rewrite A4; exact Habs).
    repeat split. }
  cbn zeta in Hstep. destruct Hstep as (S1 & S2 & S3 & S4 & S5 & S6).
  destruct (IH (step transport t (AnimationFrame gs) s)) as (R1 & R2 & R3 & R4 & R5 & R6).
  { rewrite S4, A4. exact Habs. }
  cbn zeta in *. rewrite R1, R2, R3, R4, R5, R6, S1, S2, S3, S4, S5, S6, A1, A2, A3, A4, A5.
  repeat split. unfold latchEntry. rewrite A7, A8. reflexivity.
Qed.

Lemma removeMapping_absent (ty : ChannelType) (idx : nat) (l : list FieldMapping) :
  Forall (λ m, ¬ sameChannel ty idx m) (removeMapping ty idx l).
Proof.
  apply Forall_forall. intros m Hm%list_elem_of_filter. exact (proj1 Hm).
Qed.

Lemma latchEntry_channelChanged (gs : GamepadState) (st st' : Dashboard)
    (ty : ChannelType) (idx : nat) (name : string) :
  latchEntry ty idx st' = latchEntry ty idx st →
  channelChanged gs (lastSentState st') (lastAxisValues st')
    (mkFieldMapping ty idx name) ↔
  channelChanged gs (lastSentState st) (lastAxisValues st)
    (mkFieldMapping ty idx name).
Proof.
  intros H. apply channelChanged_own_entry. cbn.
  destruct ty; unfold latchEntry in H; congruence.
Qed.

(** C9, as the code has it.  In a ChangeDetect session, removing a mapping
    through the panel leaves the latch entry of its channel in place, and
    so do the ticks that follow while the channel is unmapped.  When the
    channel is mapped again, the tick the re-adding causes judges it
    against that retained entry: with the rest of the table unchanged, the
    payload is published only if the channel's reading differs from the
    entry it had before the removal (or, for an axis, if it had none). *)
Theorem readded_mapping_meets_old_latch
    (t1 t2 : Z) (evs : list (Z * Event)) (st : Dashboard) (gs' : GamepadState)
    (ty : ChannelType) (idx : nat) (name : string) :
  isStreaming st = true → natsConnection st = true → sendByInterval st = false →
  available st (RemoveClick ty idx) = true →
  Forall (λ tev, isAnimationFrame tev.2) evs →
  let removed := step transport t1 (RemoveClick ty idx) st in
  let unmapped := run transport evs removed in
  gamepadState unmapped = Some gs' → idx < channelCount ty gs' → trim name ≠ "" →
  let readded := step transport t2 (MappingInputBlur ty idx name) unmapped in
  let new := mkFieldMapping ty idx (trim name) in
  mappings removed = removeMapping ty idx (mappings st) ∧
  latchEntry ty idx removed = latchEntry ty idx st ∧
  mappings unmapped = removeMapping ty idx (mappings st) ∧
  latchEntry ty idx unmapped = latchEntry ty idx st ∧
  mappings readded = removeMapping ty idx (mappings st) ++ [new] ∧
  wire readded =
    wire unmapped ++
    (if decide (Exists (channelChanged gs' (lastSentState unmapped)
                          (lastAxisValues unmapped)) (mappings unmapped) ∨
                channelChanged gs' (lastSentState st) (lastAxisValues st) new)
     then [buildPayload gs' (mappings readded)] else []).
Proof.
  intros Hs Hn Hi Hav Hevs. cbn zeta. intros Hgs' Hidx Hname.
  (* the removal *)
  assert (Hsel : is_Some (selectedGamepadIndex st)).
  { unfold available, mappingRowShown in Hav.
    destruct (selectedGamepadIndex st); [eauto | discriminate]. }
  set (s0 := effectCleanup (set_mappings (removeMapping ty idx (mappings st)) st)).
  assert (Hrem : step transport t1 (RemoveClick ty idx) st =
                 streamingEffect transport t1 s0).
  { rewrite step_unfold, Hav. reflexivity. }
  destruct (streamingEffect_keeps t1 s0) as (K1 & K2 & K3 & K4 & K5 & _).
  pose proof (streamingEffect_orphan t1 s0 ty idx (removeMapping_absent ty idx _)) as K6.
  rewrite <- Hrem in K1, K2, K3, K4, K5, K6.
  set (removed := step transport t1 (RemoveClick ty idx) st) in *.
  assert (Hremoved_entry : latchEntry ty idx removed = latchEntry ty idx st).
  { rewrite K6. destruct ty; reflexivity. }
  (* the frames *)
  destruct (frames_keep evs removed ty idx Hevs) as (F1 & F2 & F3 & F4 & F5 & F6).
  { rewrite K4. apply removeMapping_absent. }
  cbn zeta in *.
  set (unmapped := run transport evs removed) in *.
  assert (Hmu : mappings unmapped = removeMapping ty idx (mappings st))
    by (rewrite F4, K4; reflexivity).
  assert (Heu : latchEntry ty idx unmapped = latchEntry ty idx st)
    by (rewrite F6; exact Hremoved_entry).
  (* the re-adding *)
  assert (Hsu : isStreaming unmapped = true) by (rewrite F1, K1; exact Hs).
  assert (Hnu : natsConnection unmapped = true) by (rewrite F2, K2; exact Hn).
  assert (Hiu : sendByInterval unmapped = false) by (rewrite F3, K3; exact Hi).
  assert (Hselu : is_Some (selectedGamepadIndex unmapped))
    by (rewrite F5, K5; exact Hsel).
  assert (Hadd : addMapping ty idx name (mappings unmapped) =
                 removeMapping ty idx (mappings st) ++ [mkFieldMapping ty idx (trim name)]).
  { rewrite addMapping_nonempty by exact Hname.
    rewrite withoutChannel_absent; [rewrite Hmu; reflexivity|].
    rewrite Hmu. apply removeMapping_absent. }
  set (s1 := effectCleanup (set_mappings (addMapping ty idx name (mappings unmapped)) unmapped)).
  assert (Hre : step transport t2 (MappingInputBlur ty idx name) unmapped =
                streamingEffect transport t2 s1).
  { rewrite step_unfold. cbn [available handle]. unfold mappingRowShown.
    destruct Hselu as [i Hiu']. rewrite Hiu', Hgs'.
    rewrite bool_decide_eq_true_2 by exact Hidx.
    rewrite (bool_decide_eq_true_2 _ Hname). reflexivity. }
  assert (Hguard : effectGuard s1 = true).
  { unfold effectGuard, s1. cbn. rewrite Hsu, Hnu, Hgs'. cbn.
    rewrite Hadd. apply bool_decide_eq_true.
    intros Hnil. apply app_eq_nil in Hnil as [_ Hnil]. discriminate. }
  split; [exact K4|]. split; [exact Hremoved_entry|].
  split; [exact Hmu|]. split; [exact Heu|]. split.
  - rewrite Hre. destruct (streamingEffect_keeps t2 s1) as (_ & _ & _ & E4 & _).
    rewrite E4. exact Hadd.
  - rewrite Hre.
    rewrite (streamingEffect_onChange_wire transport t2 s1 gs');
      [|exact Hgs' | exact Hguard | exact Hiu].
    destruct (streamingEffect_keeps t2 s1) as (_ & _ & _ & E4 & _).
    rewrite E4. cbn [wire mappings lastSentState lastAxisValues s1 effectCleanup
                     set_mappings set_intervalId].
    rewrite Hadd, <- Hmu.
    apply f_equal. apply decide_ext.
    rewrite Exists_app, Exists_cons, Exists_nil.
    rewrite (latchEntry_channelChanged gs' st unmapped ty idx (trim name) Heu).
    tauto.
Qed.

End ReAdd.

Lemma readded_mapping_meets_old_latch_witness :
  let removed := step alwaysReturns 100 (RemoveClick axis 0) streamingTwoChannels in
  let unmapped := run alwaysReturns [(116, AnimationFrame padAtRest)]%Z removed in
  latchEntry axis 0 streamingTwoChannels = inr (Some (JS.decimal 5 1)) ∧
  latchEntry axis 0 removed = latchEntry axis 0 streamingTwoChannels ∧
  latchEntry axis 0 unmapped = latchEntry axis 0 streamingTwoChannels ∧
  wire (step alwaysReturns 120 (MappingInputBlur axis 0 "turn") unmapped) =
    wire unmapped.
Proof.
  cbn zeta. split; [vm_compute; reflexivity|].
  destruct (readded_mapping_meets_old_latch alwaysReturns 100 120
              [(116, AnimationFrame padAtRest)]%Z streamingTwoChannels padAtRest
              axis 0 "turn") as (_ & Hr & Hmu & Hu & _ & Hw);
    try (vm_compute; reflexivity).
  - repeat constructor.
  - cbn. lia.
  - vm_compute. discriminate.
  - split; [exact Hr|]. split; [exact Hu|].
    rewrite Hw. rewrite decide_False; [apply app_nil_r|].
    rewrite Hmu. intros [H | H].
    + apply Exists_exists in H as (m & Hm & Hch).
      vm_compute in Hm. apply list_elem_of_singleton in Hm. subst m.
      apply Hch. vm_compute. reflexivity.
    + vm_compute in H. discriminate.
Defined.
